(** * inventory-manager: the real-time event pipeline of the dashboard

    A shallow embedding of the stateful parts of the React front end:

    - [App]            the alert ring of [src/App.js]
                       ([addAlert], [removeAlert], the alerts seeded on mount);
    - [SocketContext]  the connection manager ([SocketProvider]): the
                       listeners registered on the socket, the [messages]
                       log and [sendMessage];
    - [Dashboard], [InventoryView], [AgentStatus], [SustainabilityMetrics]
                       the effects with which each panel scans the log;
    - [Session]        the page over time: signals arriving at the socket,
                       alerts pushed and dismissed;
    - [React]          the effect of a mounted panel over time: when it
                       runs, and when it runs again.

    React state is modelled by explicit state passing: a [useState] cell is
    a field of a record, a functional update [setX(prev => e)] is the
    function [fun prev => e] applied to the cell, and the wall clock read by
    [Date.now()] and [new Date()] is an oracle threaded through the calls. *)

From Stdlib Require Import ZArith QArith Qcanon List Sorting Ascii String.
From stdpp Require Import gmap strings list fin_maps numbers sorting.
Close Scope Qc_scope.
Close Scope Q_scope.
Set Warnings "-register-all".

(** ** JavaScript values carried by payloads

    Payload fields that the code stores without inspecting them.  Finite
    numbers are exact rationals; [JUndefined] is the value of an absent
    field. *)

Inductive jsval :=
| JUndefined
| JNull
| JBool (b : bool)
| JNum (q : Qc)
| JNaN
| JStr (s : string)
| JArr (l : list jsval)
| JObj (o : gmap string jsval).

Definition int (n : Z) : Qc := Q2Qc (inject_Z n).
Definition dec (n : Z) (d : positive) : Qc := Q2Qc (n # d)%Q.

(** A numeric field of component state: a finite number or [NaN]; an absent
    field ([undefined]) is [None] at the type [option number]. *)
Inductive number :=
| Num (q : Qc)
| NaN.

(** [x + 1] for [x] a number or [undefined]: [undefined + 1] and [NaN + 1]
    are [NaN]. *)
Definition plus_one (x : option number) : number :=
  match x with
  | Some (Num q) => Num (q + 1)%Qc
  | Some NaN => NaN
  | None => NaN
  end.

(** [String.prototype.toLowerCase] on ASCII text. *)
Definition lower_ascii (c : ascii) : ascii :=
  let n := nat_of_ascii c in
  if (65 <=? n)%nat && (n <=? 90)%nat then ascii_of_nat (n + 32) else c.

Fixpoint toLowerCase (s : string) : string :=
  match s with
  | EmptyString => EmptyString
  | String c s' => String (lower_ascii c) (toLowerCase s')
  end.

(** [s.substring(0, n)] *)
Definition substring0 (n : nat) (s : string) : string := String.substring 0 n s.

(** ** The wall clock

    [readings n] is the value (milliseconds since the epoch) returned by the
    [n]-th read of the clock; [reads] counts the reads made so far.  Nothing
    is assumed about the oracle: two reads may return the same millisecond. *)

Record clock := Clock { readings : nat → Z; reads : nat }.

Definition tick (c : clock) : Z * clock :=
  (readings c (reads c), Clock (readings c) (S (reads c))).

(** ** Data model *)

(** [{ id, type, message, timestamp }] of src/App.js *)
Module alert.
Record t := Make { id : Z; type : string; message : string; timestamp : Z }.
End alert.

(** Inbound events.  The payload shapes are the convention between server
    and client that the panels rely on when they read the fields. *)
Record inventory_update :=
  { sku_id : string; warehouse_id : string; current_stock : jsval }.

(** [content] holds the result of [JSON.stringify(data.content)], which is
    [undefined] ([None]) when the field is absent; [from_agent] is [None]
    when the field is absent or [null]. *)
Record agent_message :=
  { from_agent : option string; to_agent : jsval; message_type : jsval;
    content : option string }.

Record optimization_result := { optimized_sku_id : string }.

Inductive payload :=
| InventoryUpdate (d : inventory_update)
| AgentMessage (d : agent_message)
| OptimizationResult (d : optimization_result)
| SystemMetrics (d : gmap string jsval)
| SustainabilityUpdate (d : gmap string jsval).

(** The name under which the server emits an event of each kind. *)
Definition event_name (p : payload) : string :=
  match p with
  | InventoryUpdate _ => "inventory_update"
  | AgentMessage _ => "agent_message"
  | OptimizationResult _ => "optimization_result"
  | SystemMetrics _ => "system_metrics"
  | SustainabilityUpdate _ => "sustainability_update"
  end.

(** [{ type, data, timestamp }]: an entry of the [messages] log.  [type] is
    the name of the listener that stored the entry, which is the name of the
    event it received. *)
Module message.
Record t := Make { data : payload; timestamp : Z }.
Definition type (m : t) : string := event_name (data m).
End message.

(** An agent record of src/components/AgentStatus.js.  [stats] holds the
    numeric fields that differ from agent to agent
    ([forecastsGenerated], [confidence], [ordersProcessed], ...). *)
Module agent.
Record t := Make {
    name : option string;
    status : option string;
    lastActivity : option Z;
    messagesProcessed : option number;
    stats : gmap string number;
    color : option string }.

(** The object [{}], with no field. *)
Definition empty : t := Make None None None None ∅ None.
End agent.

(** An entry of [recentMessages] in AgentStatus.js. *)
Module recent.
Record t := Make {
    id : Z; from : option string; to : jsval; type : jsval;
    content : string; timestamp : Z }.
End recent.

(** A record of the [inventory] object of InventoryView.js. *)
Module sku.
Record t := Make {
    name : option string;
    category : option string;
    unitCost : option number;
    currentStock : option (gmap string jsval);
    minStock : option number;
    maxStock : option number;
    demandRate : option number;
    status : option string }.

Definition empty : t := Make None None None None None None None None.
End sku.

(** ** The page: every [useState] cell the pipeline touches, the clock, and
    the commands put on the wire by [socket.emit]. *)

Record page := Page {
  now : clock;
  alerts : list alert.t;                     (* App *)
  socket : option string;                    (* SocketProvider *)
  connected : bool;
  messages : list message.t;
  wire : list (string * jsval);              (* emitted commands, oldest first *)
  metrics : gmap string jsval;               (* Dashboard *)
  inventory : gmap string sku.t;             (* InventoryView *)
  agents : gmap string agent.t;              (* AgentStatus *)
  recentMessages : list recent.t;
  sustainabilityData : gmap string jsval }.    (* SustainabilityMetrics *)

(** ** A monad for the imperative code

    A computation changes the page and either returns a value or throws
    ([None]).  The page paired with [None] records the setters called
    before the exception.  When the exception escapes an effect, React
    unmounts the tree and that page is never shown: what the page shows is
    stated for computations that return. *)

Definition M (A : Type) : Type := page → option A * page.

Global Instance M_ret : MRet M := λ A a w, (Some a, w).
Global Instance M_bind : MBind M :=
  λ A B f m w, match m w with
               | (Some a, w') => f a w'
               | (None, w') => (None, w')
               end.

Definition throw {A} : M A := λ w, (None, w).
Definition gets {A} (f : page → A) : M A := λ w, (Some (f w), w).
Definition exec {A} (m : M A) (w : page) : page := (m w).2.

(** [keeps I m]: running [m] from a page that satisfies [I] leaves a page
    that satisfies [I], whether [m] returns or throws. *)
Definition keeps {A} (I : page → Prop) (m : M A) : Prop :=
  ∀ w, I w → I (exec m w).

(** [l.forEach(f)] *)
Fixpoint forEach {A} (l : list A) (f : A → M unit) : M unit :=
  match l with
  | [] => mret tt
  | x :: l' => f x ;; forEach l' f
  end.

Definition Date_now : M Z :=
  λ w, let '(t, c) := tick (now w) in
       (Some t, Page c (alerts w) (socket w) (connected w) (messages w) (wire w)
                     (metrics w) (inventory w) (agents w) (recentMessages w) (sustainabilityData w)).

Definition new_Date : M Z := Date_now.

(** The setters of the [useState] cells, applied to a functional update. *)
Definition setAlerts (f : list alert.t → list alert.t) : M unit :=
  λ w, (Some tt, Page (now w) (f (alerts w)) (socket w) (connected w) (messages w)
                      (wire w) (metrics w) (inventory w) (agents w) (recentMessages w) (sustainabilityData w)).

Definition setSocket (s : option string) : M unit :=
  λ w, (Some tt, Page (now w) (alerts w) s (connected w) (messages w)
                      (wire w) (metrics w) (inventory w) (agents w) (recentMessages w) (sustainabilityData w)).

Definition setConnected (b : bool) : M unit :=
  λ w, (Some tt, Page (now w) (alerts w) (socket w) b (messages w)
                      (wire w) (metrics w) (inventory w) (agents w) (recentMessages w) (sustainabilityData w)).

Definition setMessages (f : list message.t → list message.t) : M unit :=
  λ w, (Some tt, Page (now w) (alerts w) (socket w) (connected w) (f (messages w))
                      (wire w) (metrics w) (inventory w) (agents w) (recentMessages w) (sustainabilityData w)).

(** [socket.emit(event, data)] *)
Definition emit (event : string) (data : jsval) : M unit :=
  λ w, (Some tt, Page (now w) (alerts w) (socket w) (connected w) (messages w)
                      (wire w ++ [(event, data)]) (metrics w) (inventory w)
                      (agents w) (recentMessages w) (sustainabilityData w)).

Definition setMetrics (f : gmap string jsval → gmap string jsval) : M unit :=
  λ w, (Some tt, Page (now w) (alerts w) (socket w) (connected w) (messages w)
                      (wire w) (f (metrics w)) (inventory w) (agents w)
                      (recentMessages w) (sustainabilityData w)).

Definition setInventory (f : gmap string sku.t → gmap string sku.t) : M unit :=
  λ w, (Some tt, Page (now w) (alerts w) (socket w) (connected w) (messages w)
                      (wire w) (metrics w) (f (inventory w)) (agents w)
                      (recentMessages w) (sustainabilityData w)).

(** An update of [agents] whose updater throws leaves the cell as it was. *)
Definition setAgents (f : gmap string agent.t → option (gmap string agent.t)) : M unit :=
  λ w, match f (agents w) with
       | Some a => (Some tt, Page (now w) (alerts w) (socket w) (connected w)
                                  (messages w) (wire w) (metrics w) (inventory w) a
                                  (recentMessages w) (sustainabilityData w))
       | None => (None, w)
       end.

Definition setRecentMessages (f : list recent.t → list recent.t) : M unit :=
  λ w, (Some tt, Page (now w) (alerts w) (socket w) (connected w) (messages w)
                      (wire w) (metrics w) (inventory w) (agents w)
                      (f (recentMessages w)) (sustainabilityData w)).

Definition setSustainabilityData (f : gmap string jsval → gmap string jsval) : M unit :=
  λ w, (Some tt, Page (now w) (alerts w) (socket w) (connected w) (messages w)
                      (wire w) (metrics w) (inventory w) (agents w)
                      (recentMessages w) (f (sustainabilityData w))).

(** * src/App.js: the alert ring *)

Module App.

(** [useEffect(() => setAlerts([{id: 1, ...}, {id: 2, ...}]), [])] *)
Definition mount : M unit :=
  t1 ← new_Date;
  t2 ← new_Date;
  setAlerts (λ _,
    [ alert.Make 1 "info" "System initialized successfully" t1;
      alert.Make 2 "warning" "Demand spike detected for SKU001" t2 ]).

(** [setAlerts(prev => [newAlert, ...prev.slice(0, 9)])] *)
Definition addAlert (type message : string) : M unit :=
  id ← Date_now;
  timestamp ← new_Date;
  let newAlert := alert.Make id type message timestamp in
  setAlerts (λ prev, newAlert :: take 9 prev).

(** [setAlerts(prev => prev.filter(alert => alert.id !== id))] *)
Definition removeAlert (id : Z) : M unit :=
  setAlerts (λ prev, filter (λ a, alert.id a ≠ id) prev).

End App.

(** * contexts/SocketContext: the connection manager *)

Module SocketContext.

(** The body shared by the four data listeners:
    [data => setMessages(prev => [...prev, { type, data, timestamp: new Date() }])] *)
Definition store (data : payload) : M unit :=
  timestamp ← new_Date;
  setMessages (λ prev, prev ++ [message.Make data timestamp]).

(** The listeners registered with [newSocket.on(name, ...)], in source order.
    No listener is registered for [sustainability_update]. *)
Definition listeners : list (string * (payload → M unit)) :=
  [ ("inventory_update", store);
    ("agent_message", store);
    ("optimization_result", store);
    ("system_metrics", store) ].

(** What the transport delivers to the socket. *)
Inductive signal :=
| Connect
| Disconnect
| Event (p : payload).

(** The socket runs the listeners registered under the name of the event;
    an event without listener is dropped. *)
Definition receive (s : signal) : M unit :=
  match s with
  | Connect => setConnected true
  | Disconnect => setConnected false
  | Event p =>
      forEach (filter (λ l, l.1 = event_name p) listeners) (λ l, l.2 p)
  end.

(** The mount effect: [setSocket(io('ws://localhost:8000', ...))]. *)
Definition mount : M unit := setSocket (Some "ws://localhost:8000").

(** [if (socket && connected) { socket.emit(event, data); }] *)
Definition sendMessage (event : string) (data : jsval) : M unit :=
  s ← gets socket;
  c ← gets connected;
  if bool_decide (is_Some s) && c then emit event data else mret tt.

End SocketContext.

(** * components/Dashboard.js *)

Module Dashboard.

Definition initial_metrics : gmap string jsval :=
  {[ "totalInventoryValue" := JNum (int 125000);
     "totalCarbonFootprint" := JNum (int 2450);
     "serviceLevel" := JNum (dec 94 100);
     "stockoutIncidents" := JNum (int 3);
     "overstockIncidents" := JNum (int 7);
     "costEfficiency" := JNum (dec 87 100);
     "agentCommunicationVolume" := JNum (int 156);
     "optimizationCyclesCompleted" := JNum (int 42) ]}.

(** [{ ...prev, ...message.data }]: the fields of the payload win. *)
Definition merge (data prev : gmap string jsval) : gmap string jsval := data ∪ prev.

(** The body of [messages.forEach(message => ...)]. *)
Definition onMessage (m : message.t) : M unit :=
  match message.data m with
  | SystemMetrics data => setMetrics (merge data)
  | OptimizationResult data =>
      App.addAlert "info" ("Optimization completed for " +:+ optimized_sku_id data)
  | _ => mret tt
  end.

(** [useEffect(() => messages.forEach(...), [messages, addAlert])] *)
Definition effect : M unit :=
  msgs ← gets messages;
  forEach msgs onMessage.

Definition simulateDemandSpike : M unit :=
  SocketContext.sendMessage "simulate_demand_spike"
    (JObj {[ "sku_id" := JStr "SKU001"; "multiplier" := JNum (dec 25 10);
             "duration_hours" := JNum (int 24) ]}) ;;
  App.addAlert "warning" "Simulating demand spike for SKU001".

Definition simulateDelay : M unit :=
  SocketContext.sendMessage "simulate_delay"
    (JObj {[ "supplier_id" := JStr "SUP001"; "delay_days" := JNum (int 3) ]}) ;;
  App.addAlert "warning" "Simulating supplier delay for SUP001".

Definition triggerOptimization : M unit :=
  SocketContext.sendMessage "trigger_optimization" (JObj ∅) ;;
  App.addAlert "info" "Triggering system-wide optimization cycle".

End Dashboard.

(** * components/InventoryView.js *)

Module InventoryView.

Definition sample (name category : string) (unitCost : Z) (north central south : Z)
    (minStock maxStock demandRate : Z) (status : string) : sku.t :=
  sku.Make (Some name) (Some category) (Some (Num (int unitCost)))
           (Some {[ "north" := JNum (int north); "central" := JNum (int central);
                    "south" := JNum (int south) ]})
           (Some (Num (int minStock))) (Some (Num (int maxStock)))
           (Some (Num (int demandRate))) (Some status).

Definition sampleInventory : gmap string sku.t :=
  {[ "SKU001" := sample "Premium Widget" "Electronics" 25 45 78 23 20 200 5 "normal";
     "SKU002" := sample "Basic Component" "Hardware" 12 156 234 89 30 300 8 "normal";
     "SKU003" := sample "Luxury Item" "Premium" 150 3 7 2 5 50 2 "low_stock";
     "SKU004" := sample "Standard Part" "Mechanical" 8 234 345 156 40 400 10 "normal";
     "SKU005" := sample "Specialty Tool" "Tools" 75 67 89 45 10 100 3 "normal" ]}.

(** [useEffect(() => setInventory(sampleInventory), [])] *)
Definition mount : M unit := setInventory (λ _, sampleInventory).

(** The updater passed to [setInventory]:
    [{ ...prev, [data.sku_id]: { ...prev[data.sku_id],
         currentStock: { ...prev[data.sku_id]?.currentStock,
                         [data.warehouse_id]: data.current_stock } } }].
    A [sku_id] that names only an inherited member of [Object.prototype]
    spreads to nothing and has no [currentStock], exactly like an absent
    one.  The result is the set of records by key; the order in which
    [Object.entries] lists the keys is not modelled. *)
Definition update (data : inventory_update) (prev : gmap string sku.t)
  : gmap string sku.t :=
  let old := default sku.empty (prev !! sku_id data) in
  let stock := default ∅ (prev !! sku_id data ≫= sku.currentStock) in
  <[ sku_id data :=
       sku.Make (sku.name old) (sku.category old) (sku.unitCost old)
                (Some (<[ warehouse_id data := current_stock data ]> stock))
                (sku.minStock old) (sku.maxStock old) (sku.demandRate old)
                (sku.status old) ]> prev.

Definition onMessage (m : message.t) : M unit :=
  match message.data m with
  | InventoryUpdate data =>
      setInventory (update data) ;;
      App.addAlert "info"
        ("Inventory updated for " +:+ sku_id data +:+ " in " +:+ warehouse_id data)
  | _ => mret tt
  end.

(** [useEffect(() => messages.forEach(...), [messages, addAlert])] *)
Definition effect : M unit :=
  msgs ← gets messages;
  forEach msgs onMessage.

End InventoryView.

(** * components/AgentStatus.js *)

Module AgentStatus.

(** [useState({ demand: {...}, supply: {...}, logistics: {...},
    negotiation: {...} })]; [t] gives the four [new Date()] readings.
    Only [demand] has a [messagesProcessed] field. *)
Definition initial_agents (t : nat → Z) : gmap string agent.t :=
  {[ "demand" :=
       agent.Make (Some "Demand Agent") (Some "active") (Some (t 0%nat))
         (Some (Num (int 45)))
         {[ "forecastsGenerated" := Num (int 12); "confidence" := Num (dec 87 100) ]}
         (Some "#28a745");
     "supply" :=
       agent.Make (Some "Supply Agent") (Some "active") (Some (t 1%nat)) None
         {[ "ordersProcessed" := Num (int 23); "suppliersMonitored" := Num (int 4);
            "reliability" := Num (dec 92 100) ]}
         (Some "#007bff");
     "logistics" :=
       agent.Make (Some "Logistics Agent") (Some "active") (Some (t 2%nat)) None
         {[ "shipmentsOptimized" := Num (int 18); "routesCalculated" := Num (int 156);
            "efficiency" := Num (dec 89 100) ]}
         (Some "#ffc107");
     "negotiation" :=
       agent.Make (Some "Negotiation Agent") (Some "active") (Some (t 3%nat)) None
         {[ "negotiationsCompleted" := Num (int 7); "costSavings" := Num (int 12500);
            "successRate" := Num (dec 85 100) ]}
         (Some "#dc3545") ]}.

(** [useState([{ id: 1, ... }, ..., { id: 4, ... }])]; [t] gives the four
    [Date.now()] readings. *)
Definition initial_recentMessages (t : nat → Z) : list recent.t :=
  [ recent.Make 1 (Some "demand") (JStr "supply") (JStr "demand_forecast")
      "Forecast spike for SKU001 - 150% increase expected"
      (t 0%nat - 2 * 60 * 1000);
    recent.Make 2 (Some "supply") (JStr "negotiation") (JStr "supply_alert")
      "Low stock alert for SKU003 - immediate reorder needed"
      (t 1%nat - 5 * 60 * 1000);
    recent.Make 3 (Some "logistics") (JStr "supply") (JStr "logistics_request")
      "Proposing inventory transfer from North to South warehouse"
      (t 2%nat - 8 * 60 * 1000);
    recent.Make 4 (Some "negotiation") (JStr "supply") (JStr "negotiation_offer")
      "Secured 15% discount from SUP002 for bulk order"
      (t 3%nat - 12 * 60 * 1000) ]%Z.

(** *** Property lookup on the [agents] object

    [agents] is created by an object literal, so [agents[key]] finds the own
    properties of the object and, failing that, the members that every such
    object inherits from [Object.prototype]. *)
Definition Object_prototype : list string :=
  [ "constructor"; "__defineGetter__"; "__defineSetter__"; "hasOwnProperty";
    "__lookupGetter__"; "__lookupSetter__"; "isPrototypeOf";
    "propertyIsEnumerable"; "toString"; "valueOf"; "__proto__";
    "toLocaleString" ].

Inductive property :=
| Own (a : agent.t)     (* an agent record *)
| Inherited             (* a built-in function, or the prototype itself *)
| Undefined.

Definition get (o : gmap string agent.t) (key : string) : property :=
  match o !! key with
  | Some a => Own a
  | None => if bool_decide (key ∈ Object_prototype) then Inherited else Undefined
  end.

(** Agent records and built-in objects are truthy. *)
Definition truthy (p : property) : bool :=
  match p with
  | Own _ | Inherited => true
  | Undefined => false
  end.

(** [data.from_agent?.toLowerCase()] *)
Definition agentKey_of (data : agent_message) : option string :=
  toLowerCase <$> from_agent data.

(** A string is truthy unless it is empty; [undefined] is falsy. *)
Definition truthy_key (k : option string) : bool :=
  match k with
  | Some s => negb (String.eqb s "")
  | None => false
  end.

(** The updater passed to [setAgents]:
    [{ ...prev, [agentKey]: { ...prev[agentKey], lastActivity: new Date(),
         messagesProcessed: prev[agentKey].messagesProcessed + 1 } }].
    A built-in object has no enumerable field of its own and no
    [messagesProcessed]; reading a field of [undefined] throws. *)
Definition update (agentKey : string) (t : Z) (prev : gmap string agent.t)
  : option (gmap string agent.t) :=
  match get prev agentKey with
  | Own a =>
      Some (<[ agentKey :=
                 agent.Make (agent.name a) (agent.status a) (Some t)
                   (Some (plus_one (agent.messagesProcessed a)))
                   (agent.stats a) (agent.color a) ]> prev)
  | Inherited =>
      Some (<[ agentKey :=
                 agent.Make None None (Some t) (Some (plus_one None)) ∅ None ]> prev)
  | Undefined => None
  end.

(** The body of [messages.forEach(message => ...)]; [agents] is the value of
    the state cell captured by the effect. *)
Definition onMessage (agents : gmap string agent.t) (m : message.t) : M unit :=
  match message.data m with
  | AgentMessage data =>
      match agentKey_of data with
      | Some agentKey =>
          if truthy_key (Some agentKey) && truthy (get agents agentKey) then
            t ← new_Date;
            setAgents (update agentKey t) ;;
            id ← Date_now;
            json ← (match content data with
                    | Some s => mret s
                    | None => throw
                    end);
            timestamp ← new_Date;
            let newMessage :=
              recent.Make id (from_agent data) (to_agent data) (message_type data)
                          (substring0 100 json +:+ "...") timestamp in
            setRecentMessages (λ prev, newMessage :: take 9 prev)
          else mret tt
      | None => mret tt
      end
  | _ => mret tt
  end.

(** [useEffect(() => messages.forEach(...), [messages, agents])] *)
Definition effect : M unit :=
  msgs ← gets messages;
  captured ← gets agents;
  forEach msgs (onMessage captured).

(** The fact about [agents] that the panel maintains: the three agents
    created without [messagesProcessed] are present, and the field is either
    still undefined or [NaN]. *)
Definition uncounted : list string := ["supply"; "logistics"; "negotiation"].

Definition never_counts (w : page) : Prop :=
  ∀ k, k ∈ uncounted →
       ∃ a, agents w !! k = Some a ∧
            (agent.messagesProcessed a = None ∨ agent.messagesProcessed a = Some NaN).

End AgentStatus.

(** * components/SustainabilityMetrics.js *)

Module SustainabilityMetrics.

Definition category (name : string) (value : Z) (color : string) : jsval :=
  JObj {[ "name" := JStr name; "value" := JNum (int value); "color" := JStr color ]}.

Definition supplier (name : string) (carbonRating distance sustainability : Z) : jsval :=
  JObj {[ "name" := JStr name; "carbonRating" := JNum (int carbonRating);
          "distance" := JNum (int distance);
          "sustainability" := JNum (int sustainability) ]}.

Definition month (name : string) (carbon reduction : Z) : jsval :=
  JObj {[ "month" := JStr name; "carbon" := JNum (int carbon);
          "reduction" := JNum (int reduction) ]}.

Definition initial_sustainabilityData : gmap string jsval :=
  {[ "totalCarbonFootprint" := JNum (int 2450);
     "carbonReduction" := JNum (dec 125 10);
     "sustainableSuppliers" := JNum (int 3);
     "totalSuppliers" := JNum (int 4);
     "renewableEnergyUsage" := JNum (int 78);
     "wasteReduction" := JNum (int 23);
     "localSourcing" := JNum (int 65);
     "carbonByCategory" :=
       JArr [ category "Transportation" 1200 "#8884d8";
              category "Warehousing" 650 "#82ca9d";
              category "Packaging" 400 "#ffc658";
              category "Processing" 200 "#ff7c7c" ];
     "supplierRatings" :=
       JArr [ supplier "East Coast Supply" 85 150 90;
              supplier "Central Distributors" 78 300 75;
              supplier "Southern Logistics" 82 200 85;
              supplier "West Coast Wholesale" 65 800 60 ];
     "monthlyTrends" :=
       JArr [ month "Jan" 2800 8; month "Feb" 2650 12; month "Mar" 2500 15;
              month "Apr" 2450 18; month "May" 2400 20; month "Jun" 2350 22 ] ]}.

(** The body of [messages.forEach(message => ...)]: the panel waits for
    messages of type [sustainability_update]. *)
Definition onMessage (m : message.t) : M unit :=
  match message.data m with
  | SustainabilityUpdate data =>
      setSustainabilityData (λ prev, data ∪ prev) ;;
      App.addAlert "success" "Sustainability metrics updated"
  | _ => mret tt
  end.

(** [useEffect(() => messages.forEach(...), [messages, addAlert])] *)
Definition effect : M unit :=
  msgs ← gets messages;
  forEach msgs onMessage.

End SustainabilityMetrics.

(** * A session of the page *)

Module Session.

(** The cells as the [useState] initialisers leave them; the first eight
    clock readings are those of [AgentStatus]. *)
Definition initial (time : nat → Z) : page :=
  Page (Clock time 8) [] None false [] []
       Dashboard.initial_metrics ∅
       (AgentStatus.initial_agents time)
       (AgentStatus.initial_recentMessages (λ n, time (4 + n)%nat))
       SustainabilityMetrics.initial_sustainabilityData.

(** The readings of a clock that advances one millisecond every eight
    reads. *)
Definition slow_clock (n : nat) : Z := 1762066800000 + Z.of_nat (n / 8).

(** After the mount effects of [SocketProvider] and [App]. *)
Definition mounted (time : nat → Z) : page :=
  exec (SocketContext.mount ;; App.mount) (initial time).

(** *** The alert ring over a session

    After mounting, the ring changes only through [addAlert] (called by the
    panels) and [removeAlert] (the close button of an alert). *)
Inductive action :=
| AddAlert (type message : string)
| RemoveAlert (id : Z).

Definition step (a : action) : M unit :=
  match a with
  | AddAlert type message => App.addAlert type message
  | RemoveAlert id => App.removeAlert id
  end.

Definition run (time : nat → Z) (acts : list action) : page :=
  foldl (λ w a, exec (step a) w) (mounted time) acts.

(** *** Insertion order

    A ghost copy of the ring in which every alert carries the number of the
    [setAlerts] call that inserted it: both seeded alerts carry 0, the alert
    of the [k]-th [addAlert] carries [k]. *)
Record ghost := Ghost { g_now : clock; g_next : nat; g_ring : list (nat * alert.t) }.

Definition ghost_step (a : action) (g : ghost) : ghost :=
  match a with
  | AddAlert type message =>
      let '(id, c1) := tick (g_now g) in
      let '(timestamp, c2) := tick c1 in
      Ghost c2 (S (g_next g))
            ((g_next g, alert.Make id type message timestamp) :: take 9 (g_ring g))
  | RemoveAlert id =>
      Ghost (g_now g) (g_next g) (filter (λ p, alert.id p.2 ≠ id) (g_ring g))
  end.

Definition ghost_mounted (time : nat → Z) : ghost :=
  Ghost (Clock time 10) 1
    [ (0%nat, alert.Make 1 "info" "System initialized successfully" (time 8%nat));
      (0%nat, alert.Make 2 "warning" "Demand spike detected for SKU001" (time 9%nat)) ].

Definition ghost_run (time : nat → Z) (acts : list action) : ghost :=
  foldl (λ g a, ghost_step a g) (ghost_mounted time) acts.

(** Insertion numbers never increase along the ring: newest first. *)
Definition newest_first (r : list (nat * alert.t)) : Prop :=
  StronglySorted (λ x y, (y.1 ≤ x.1)%nat) r.

(** *** A panel that follows the log

    The socket receives a signal; when this made the log grow, the panel is
    rendered again with the new [messages] array and its effect runs.
    [follow] stops after this first run.  The effect runs again when the
    run has replaced another of its dependencies: [React.arrive] below
    follows the effect through these further runs. *)
Definition follow (effect : M unit) (s : SocketContext.signal) : M unit :=
  before ← gets (λ w, length (messages w));
  SocketContext.receive s ;;
  after ← gets (λ w, length (messages w));
  if bool_decide (before < after)%nat then effect else mret tt.

Definition deliver (effect : M unit) (ss : list SocketContext.signal) : M unit :=
  forEach ss (follow effect).

(** The log is only ever extended by [receive]. *)
Definition ingest (ss : list SocketContext.signal) : M unit :=
  forEach ss SocketContext.receive.

(** The kinds a panel meets, in order, when its effect walks the log with
    [messages.forEach]. *)
Definition observed_kinds (w : page) : list string :=
  message.type <$> messages w.

(** Whether an event is stored by some listener. *)
Definition listened (p : payload) : bool :=
  bool_decide (event_name p ∈ SocketContext.listeners.*1).

(** The sequence of payloads a panel handles over the successive runs of its
    effect while the log grows from [seen] by the events [new], one at a
    time: every run starts again at the first message of the log. *)
Fixpoint scans_from {A} (seen new : list A) : list A :=
  match new with
  | [] => []
  | x :: new' => (seen ++ [x]) ++ scans_from (seen ++ [x]) new'
  end.

Definition scans {A} (log : list A) : list A := scans_from [] log.

(** The payloads of one kind among a sequence of payloads. *)
Definition inventory_updates (ps : list payload) : list inventory_update :=
  omap (λ p, match p with InventoryUpdate d => Some d | _ => None end) ps.

Definition optimization_results (ps : list payload) : list optimization_result :=
  omap (λ p, match p with OptimizationResult d => Some d | _ => None end) ps.

Definition system_metrics (ps : list payload) : list (gmap string jsval) :=
  omap (λ p, match p with SystemMetrics d => Some d | _ => None end) ps.

(** What the user reads on an alert: its severity and its text. *)
Definition notice (a : alert.t) : string * string := (alert.type a, alert.message a).

Definition inventory_notice (d : inventory_update) : string * string :=
  ("info", "Inventory updated for " +:+ sku_id d +:+ " in " +:+ warehouse_id d).

Definition optimization_notice (d : optimization_result) : string * string :=
  ("info", "Optimization completed for " +:+ optimized_sku_id d).

End Session.

(** * components/InventoryView.js: stock status and the reorder dialog *)

Module InventoryControls.

(** The value of [sku.currentStock[warehouseId] || 0] as the number that the
    comparisons of [getStockStatus] see.  A falsy stock counts as 0; a
    built-in member inherited from [Object.prototype] converts to [NaN].
    The conversion of a non-empty string, an array or an object to a number
    is not modelled ([None]). *)
Definition stock_or_zero (currentStock : gmap string jsval) (warehouseId : string)
  : option number :=
  match currentStock !! warehouseId with
  | Some (JNum q) => Some (Num q)
  | Some (JBool true) => Some (Num 1)
  | Some JUndefined | Some JNull | Some (JBool false) | Some JNaN => Some (Num 0)
  | Some (JStr s) => if String.eqb s "" then Some (Num 0) else None
  | Some (JArr _) | Some (JObj _) => None
  | None =>
      if bool_decide (warehouseId ∈ AgentStatus.Object_prototype)
      then Some NaN else Some (Num 0)
  end.

(** [x <= y] on numbers, [y] possibly undefined: a comparison with [NaN] or
    [undefined] is false. *)
Definition le (x : number) (y : option number) : bool :=
  match x, y with
  | Num a, Some (Num b) => bool_decide (a ≤ b)%Qc
  | _, _ => false
  end.

(** [x * c] for [x] a number or undefined. *)
Definition times (x : option number) (c : Qc) : number :=
  match x with
  | Some (Num q) => Num (q * c)%Qc
  | _ => NaN
  end.

Inductive answer :=
| Returns (status : string)
| TypeError          (* [sku.currentStock] is undefined *)
| NotModelled.       (* see [stock_or_zero] and [getStockStatus] *)

(** [getStockStatus(sku, warehouseId)].  When [sku.maxStock] is undefined or
    [NaN], so is [sku.maxStock * 0.9], and [stock >= NaN] is false; so is
    [NaN >= x].  When both are finite numbers the product is rounded to a
    double, and the comparison of the stock with it is not modelled. *)
Definition getStockStatus (s : sku.t) (warehouseId : string) : answer :=
  match sku.currentStock s with
  | None => TypeError
  | Some currentStock =>
      match stock_or_zero currentStock warehouseId with
      | None => NotModelled
      | Some stock =>
          if le stock (sku.minStock s) then Returns "low_stock"
          else match stock, sku.maxStock s with
               | Num _, Some (Num _) => NotModelled
               | _, _ => Returns "normal"
               end
      end
  end.

(** The cells of the reorder dialog:
    [showReorderModal], [selectedSKU] ([null] is [None]), [reorderQuantity]. *)
Record dialog := Dialog {
  showReorderModal : bool;
  selectedSKU : option string;
  reorderQuantity : number }.

Definition initial_dialog : dialog := Dialog false None (Num 0).

(** [handleReorder(skuId)]: [setSelectedSKU(skuId)] is called before
    [inventory[skuId].minStock] is read; the read throws when
    [inventory[skuId]] is undefined, and finds no [minStock] on a built-in
    member inherited from [Object.prototype]. *)
Definition handleReorder (inventory : gmap string sku.t) (skuId : string) (d : dialog)
  : option unit * dialog :=
  match inventory !! skuId with
  | Some s =>
      (Some tt, Dialog true (Some skuId) (times (sku.minStock s) 2))
  | None =>
      if bool_decide (skuId ∈ AgentStatus.Object_prototype)
      then (Some tt, Dialog true (Some skuId) (times None 2))
      else (None, Dialog (showReorderModal d) (Some skuId) (reorderQuantity d))
  end.

(** [reorderQuantity > 0] *)
Definition positive (x : number) : option Qc :=
  match x with
  | Num q => if bool_decide (0 < q)%Qc then Some q else None
  | NaN => None
  end.

Section Printer.

(** The decimal text that a template literal gives for a positive number. *)
Variable Number_toString : Qc → string.

(** [confirmReorder()]; the result is the dialog after the call. *)
Definition confirmReorder (d : dialog) : M dialog :=
  match selectedSKU d with
  | Some sku =>
      if negb (String.eqb sku "") then
        match positive (reorderQuantity d) with
        | Some quantity =>
            SocketContext.sendMessage "create_reorder"
              (JObj {[ "sku_id" := JStr sku; "quantity" := JNum quantity;
                       "priority" := JStr "high" ]}) ;;
            App.addAlert "success"
              ("Reorder request sent for " +:+ sku +:+ ": "
               +:+ Number_toString quantity +:+ " units") ;;
            mret (Dialog false (selectedSKU d) (reorderQuantity d))
        | None => mret d
        end
      else mret d
  | None => mret d
  end.

End Printer.

End InventoryControls.

(** * components/AgentStatus.js: the System Health card *)

Module AgentHealth.

(** [sum + agent.messagesProcessed], [sum] a number: adding [undefined] or
    [NaN] gives [NaN]. *)
Definition add (agent : agent.t) (sum : number) : number :=
  match sum, agent.messagesProcessed agent with
  | Num a, Some (Num b) => Num (a + b)%Qc
  | _, _ => NaN
  end.

(** [Object.values(agents).reduce((sum, agent) => sum + agent.messagesProcessed, 0)].
    The sum of exact numbers and [NaN] does not depend on the order of the
    values. *)
Definition totalMessages (agents : gmap string agent.t) : number :=
  map_fold (λ _ agent sum, add agent sum) (Num 0) agents.

(** [Object.values(agents).filter(a => a.status === 'active').length] *)
Definition activeAgents (agents : gmap string agent.t) : nat :=
  size (filter (λ ka, agent.status ka.2 = Some "active") agents).

End AgentHealth.

(** * The whole page at work *)

Module Play.

Inductive panel :=
| DashboardPanel
| InventoryPanel
| AgentPanel
| SustainabilityPanel.

Definition effect_of (p : panel) : M unit :=
  match p with
  | DashboardPanel => Dashboard.effect
  | InventoryPanel => InventoryView.effect
  | AgentPanel => AgentStatus.effect
  | SustainabilityPanel => SustainabilityMetrics.effect
  end.

(** The three buttons of the dashboard. *)
Inductive button :=
| SimulateDemandSpike
| SimulateDelay
| TriggerOptimization.

Definition click (b : button) : M unit :=
  match b with
  | SimulateDemandSpike => Dashboard.simulateDemandSpike
  | SimulateDelay => Dashboard.simulateDelay
  | TriggerOptimization => Dashboard.triggerOptimization
  end.

(** What can happen to the mounted page: the transport delivers a signal,
    the effect of a panel runs, the operator presses a dashboard button,
    confirms the reorder dialog, or closes an alert. *)
Inductive step :=
| Signal (s : SocketContext.signal)
| Effect (p : panel)
| Click (b : button)
| Confirm (d : InventoryControls.dialog)
| Dismiss (id : Z).

Definition sends (s : step) : bool :=
  match s with
  | Click _ | Confirm _ => true
  | _ => false
  end.

Section Printer.

Variable Number_toString : Qc → string.

Definition perform (s : step) : M unit :=
  match s with
  | Signal s => SocketContext.receive s
  | Effect p => effect_of p
  | Click b => click b
  | Confirm d => InventoryControls.confirmReorder Number_toString d ;; mret tt
  | Dismiss id => App.removeAlert id
  end.

(** The steps in order; an exception ends the session. *)
Definition play (steps : list step) : M unit := forEach steps perform.

End Printer.

End Play.

(** * The effect of a mounted panel over time

    React runs the effect of a panel after the render that mounts it, and
    again after every render in which a member of the dependency array of
    the effect is not the value it had at the previous render.  The arrays
    are [[messages, addAlert]] in Dashboard.js, InventoryView.js and
    SustainabilityMetrics.js, and [[messages, agents]] in AgentStatus.js.

    - [messages] is replaced by every call of a listener of the socket.
    - [addAlert] is a function declared in the body of [App]
      (src/App.js, line 23): every render of [App] creates a new one, and
      [App] renders again whenever [setAlerts] is called, that is, after
      every call of [addAlert].
    - [agents] is replaced by every call of [setAgents].

    So a run of the effect that calls [addAlert] (or, in the agent panel,
    [setAgents]) is followed by a render and by another run of the same
    effect over the same log. *)

Module React.

(** Whether handling the message [m] calls the setter behind a dependency
    of the effect that handles it; [captured] is the [agents] object that
    the guard of the agent panel reads. *)
Definition stirs (p : Play.panel) (captured : gmap string agent.t) (m : message.t)
  : bool :=
  match p, message.data m with
  | Play.DashboardPanel, OptimizationResult _ => true          (* addAlert *)
  | Play.InventoryPanel, InventoryUpdate _ => true             (* addAlert *)
  | Play.SustainabilityPanel, SustainabilityUpdate _ => true   (* addAlert *)
  | Play.AgentPanel, AgentMessage data =>                      (* setAgents *)
      match AgentStatus.agentKey_of data with
      | Some agentKey =>
          AgentStatus.truthy_key (Some agentKey)
          && AgentStatus.truthy (AgentStatus.get captured agentKey)
      | None => false
      end
  | _, _ => false
  end.

(** One run of the effect of the mounted panel.  The result tells whether
    the run has replaced a dependency of the effect, so that React renders
    and runs the effect again. *)
Definition run (p : Play.panel) : M bool :=
  msgs ← gets messages;
  captured ← gets agents;
  Play.effect_of p ;;
  mret (existsb (stirs p captured) msgs).

(** The effect runs again for as long as its last run has replaced one of
    its dependencies; [renders] bounds the number of runs by the time React
    is given. *)
Fixpoint settle (renders : nat) (p : Play.panel) : M unit :=
  match renders with
  | O => mret tt
  | S n => run p ≫= λ again : bool, if again then settle n p else mret tt
  end.

(** The panel is mounted: its effect runs once, and then as [settle] says. *)
Definition mount (p : Play.panel) (renders : nat) : M unit := settle (S renders) p.

(** The socket receives a signal while the panel is mounted.  When a
    listener has replaced [messages], the effect runs, and then as [settle]
    says, for the [renders] renders that React completes before the log
    grows again.  A signal that leaves [messages] alone replaces no
    dependency and starts no run. *)
Definition arrive (p : Play.panel) (s : SocketContext.signal) (renders : nat) : M unit :=
  before ← gets (λ w, length (messages w));
  SocketContext.receive s ;;
  after ← gets (λ w, length (messages w));
  if bool_decide (before < after)%nat then settle (S renders) p else mret tt.

(** A mounted panel over time: the signals in the order of their arrival,
    each with the number of renders that React completes after the first
    run of the effect and before the log grows again. *)
Definition attend (p : Play.panel) (sched : list (SocketContext.signal * nat)) : M unit :=
  forEach sched (λ sn, arrive p sn.1 sn.2).

(** The events among the signals of a schedule. *)
Definition delivered (sched : list (SocketContext.signal * nat)) : list payload :=
  omap (λ sn, match sn.1 with
              | SocketContext.Event p => Some p
              | _ => None
              end) sched.

(** [JSON.stringify(data.content)] is a string: the agent panel can handle
    the message without a [TypeError]. *)
Definition with_content (p : payload) : bool :=
  match p with
  | AgentMessage d => bool_decide (is_Some (content d))
  | _ => true
  end.

(** The messages whose lowercased sender is [key]. *)
Definition from_key (key : string) (p : payload) : bool :=
  match p with
  | AgentMessage d => bool_decide (AgentStatus.agentKey_of d = Some key)
  | _ => false
  end.

(** [messagesProcessed: prev[agentKey].messagesProcessed + 1] on a field
    that may be undefined. *)
Definition bump (x : option number) : option number := Some (plus_one x).

(** How many of the payloads [ps] come from [key]. *)
Definition count_from (key : string) (ps : list payload) : nat :=
  length (filter (λ pl, from_key key pl = true) ps).



End React.

(** * Properties *)

(** ** The alert ring *)

Lemma take_9_length {A} (l : list A) : (length (take 9 l) ≤ 9)%nat.
Proof. rewrite length_take. lia. Qed.

Lemma StronglySorted_take {A} (R : A → A → Prop) (n : nat) (l : list A) :
  StronglySorted R l → StronglySorted R (take n l).
Proof.
  intros Hs. revert n. induction Hs as [|x l Hl IH Hx]; intros [|n]; simpl;
    try constructor; auto.
  apply Forall_take. exact Hx.
Qed.

Lemma Forall_keep {A} (P Q : A → Prop) `{∀ x, Decision (Q x)} (l : list A) :
  Forall P l → Forall P (filter Q l).
Proof.
  rewrite !Forall_forall. intros HP x Hx.
  apply list_elem_of_filter in Hx. apply HP, Hx.
Qed.

Lemma StronglySorted_filter {A} (R : A → A → Prop) (P : A → Prop)
    `{∀ x, Decision (P x)} (l : list A) :
  StronglySorted R l → StronglySorted R (filter P l).
Proof.
  induction 1 as [|x l Hl IH Hx]; [constructor|].
  rewrite filter_cons. case_decide; [|done].
  constructor; [done|]. by apply Forall_keep.
Qed.

Lemma erase_filter (id : Z) (r : list (nat * alert.t)) :
  (filter (λ p, alert.id p.2 ≠ id) r).*2 = filter (λ a, alert.id a ≠ id) r.*2.
Proof.
  induction r as [|[n a] r IH]; [done|].
  rewrite fmap_cons, !filter_cons. cbn [snd].
  case_decide; [rewrite fmap_cons|]; by rewrite IH.
Qed.

(** What one call of [addAlert] does to the page. *)
Lemma addAlert_unfold (type message : string) (w : page) :
  App.addAlert type message w =
  (Some tt,
   Page (Clock (readings (now w)) (S (S (reads (now w)))))
        (alert.Make (readings (now w) (reads (now w))) type message
                    (readings (now w) (S (reads (now w))))
           :: take 9 (alerts w))
        (socket w) (connected w) (messages w) (wire w) (metrics w)
        (inventory w) (agents w) (recentMessages w) (sustainabilityData w)).
Proof. reflexivity. Qed.

Lemma removeAlert_unfold (id : Z) (w : page) :
  App.removeAlert id w =
  (Some tt,
   Page (now w) (filter (λ a, alert.id a ≠ id) (alerts w))
        (socket w) (connected w) (messages w) (wire w) (metrics w)
        (inventory w) (agents w) (recentMessages w) (sustainabilityData w)).
Proof. reflexivity. Qed.

(** The ghost ring is the real ring with insertion numbers attached. *)
Lemma ghost_step_erase (a : Session.action) (w : page) (g : Session.ghost) :
  now w = Session.g_now g → alerts w = (Session.g_ring g).*2 →
  now (exec (Session.step a) w) = Session.g_now (Session.ghost_step a g) ∧
  alerts (exec (Session.step a) w) = (Session.g_ring (Session.ghost_step a g)).*2.
Proof.
  intros Hn Ha. destruct a as [ty msg|i]; unfold exec; cbn [Session.step].
  - rewrite addAlert_unfold. cbn. rewrite <- Hn, Ha. split; [done|].
    by rewrite fmap_take.
  - rewrite removeAlert_unfold. cbn [snd now alerts Session.ghost_step Session.g_now Session.g_ring].
    split; [done|]. rewrite Ha.
    by rewrite erase_filter.
Qed.

Lemma ghost_run_erase (time : nat → Z) (acts : list Session.action) :
  now (Session.run time acts) = Session.g_now (Session.ghost_run time acts) ∧
  alerts (Session.run time acts) = (Session.g_ring (Session.ghost_run time acts)).*2.
Proof.
  unfold Session.run, Session.ghost_run.
  assert (now (Session.mounted time) = Session.g_now (Session.ghost_mounted time) ∧
          alerts (Session.mounted time) = (Session.g_ring (Session.ghost_mounted time)).*2)
    as H by done.
  revert H. generalize (Session.mounted time) (Session.ghost_mounted time).
  induction acts as [|a acts IH]; intros w g [Hn Ha]; [done|].
  cbn. apply IH. by apply ghost_step_erase.
Qed.

Lemma ghost_step_invariant (a : Session.action) (g : Session.ghost) :
  let inv g := Session.newest_first (Session.g_ring g) ∧
               Forall (λ p, (p.1 < Session.g_next g)%nat) (Session.g_ring g) ∧
               (length (Session.g_ring g) ≤ 10)%nat in
  inv g → inv (Session.ghost_step a g).
Proof.
  intros inv (Hs & Hb & Hl). destruct a as [ty msg|i]; cbn.
  - repeat split.
    + constructor; [by apply StronglySorted_take|].
      apply Forall_take. eapply Forall_impl; [exact Hb|]. cbn. lia.
    + constructor; [cbn; lia|]. apply Forall_take.
      eapply Forall_impl; [exact Hb|]. cbn. lia.
    + cbn. pose proof (take_9_length (Session.g_ring g)). lia.
  - repeat split.
    + by apply StronglySorted_filter.
    + by apply Forall_keep.
    + etrans; [apply length_filter|done].
Qed.

Lemma ghost_run_invariant (time : nat → Z) (acts : list Session.action) :
  let g := Session.ghost_run time acts in
  Session.newest_first (Session.g_ring g) ∧
  Forall (λ p, (p.1 < Session.g_next g)%nat) (Session.g_ring g) ∧
  (length (Session.g_ring g) ≤ 10)%nat.
Proof.
  unfold Session.ghost_run.
  assert (Session.newest_first (Session.g_ring (Session.ghost_mounted time)) ∧
          Forall (λ p, (p.1 < Session.g_next (Session.ghost_mounted time))%nat)
                 (Session.g_ring (Session.ghost_mounted time)) ∧
          (length (Session.g_ring (Session.ghost_mounted time)) ≤ 10)%nat) as H.
  { cbn. repeat split; [|repeat constructor; cbn; lia|lia].
    repeat constructor. }
  revert H. generalize (Session.ghost_mounted time).
  induction acts as [|a acts IH]; intros g H; [done|].
  cbn. apply IH. by apply ghost_step_invariant.
Qed.

(** C4. From any reachable ring, [addAlert] returns normally and leaves a
    ring of at most 10 alerts whose first alert is the new one; a reachable
    ring itself holds at most 10 alerts, and when it holds exactly 10 the
    alert that is dropped is its last one, which was inserted no later than
    any alert that is kept, whatever the severities ([type]) in the ring. *)
Theorem addAlert_bounded_evicts_oldest
    (time : nat → Z) (acts : list Session.action) (type message : string) :
  let w := Session.run time acts in
  let w' := exec (App.addAlert type message) w in
  let newAlert :=
    alert.Make (readings (now w) (reads (now w))) type message
               (readings (now w) (S (reads (now w)))) in
  let ring := Session.g_ring (Session.ghost_run time acts) in
  App.addAlert type message w = (Some tt, w') ∧
  alerts w = ring.*2 ∧
  (length (alerts w) ≤ 10)%nat ∧
  (length (alerts w') ≤ 10)%nat ∧
  head (alerts w') = Some newAlert ∧
  (length (alerts w) = 10%nat →
   ∃ keep oldest,
     ring = keep ++ [oldest] ∧
     alerts w' = newAlert :: keep.*2 ∧
     ∀ p, p ∈ keep → (oldest.1 ≤ p.1)%nat).
Proof.
  intros w w' newAlert ring.
  destruct (ghost_run_erase time acts) as [_ Hring].
  destruct (ghost_run_invariant time acts) as (Hsorted & _ & Hlen).
  fold ring in Hring, Hsorted, Hlen. fold w in Hring.
  assert (alerts w' = newAlert :: take 9 (alerts w)) as Hw'.
  { subst w'. unfold exec. by rewrite addAlert_unfold. }
  split; [subst w'; unfold exec; by rewrite addAlert_unfold|].
  split; [done|].
  split; [by rewrite Hring, length_fmap|].
  split; [rewrite Hw'; cbn; pose proof (take_9_length (alerts w)); lia|].
  split; [by rewrite Hw'|].
  intros Hfull. rewrite Hring, length_fmap in Hfull.
  assert (length (drop 9 ring) = 1%nat) as Hdrop by (rewrite length_drop; lia).
  destruct (drop 9 ring) as [|oldest [|??]] eqn:Hd; try done.
  exists (take 9 ring), oldest.
  assert (ring = take 9 ring ++ [oldest]) as Hsplit
    by (by rewrite <- Hd, take_drop).
  split; [done|]. split; [by rewrite Hw', Hring, fmap_take|].
  intros p Hp. rewrite Hsplit in Hsorted.
  eapply (StronglySorted_app_1_elem_of _ _ _ p oldest) in Hsorted;
    [done|done|set_solver].
Qed.

(** Eight alerts pushed on the seeded ring fill it; the ninth push drops
    the seeded alert with id 2. *)
Example ring_fills_up :
  let pushes := replicate 8 (Session.AddAlert "info" "update") in
  length (alerts (Session.run Session.slow_clock pushes)) = 10%nat ∧
  alert.id <$> last (alerts (Session.run Session.slow_clock pushes)) = Some 2%Z ∧
  alert.id <$> last (alerts (Session.run Session.slow_clock
                               (pushes ++ [Session.AddAlert "error" "late"])))
    = Some 1%Z.
Proof. repeat split. Qed.

(** C7. Two [addAlert] calls whose [Date.now()] readings agree put two
    alerts with the same [id] at the head of the ring, from any reachable
    ring: the ids of the ring are then not pairwise distinct. *)
Theorem addAlert_same_millisecond_same_id
    (time : nat → Z) (acts : list Session.action) (ty1 msg1 ty2 msg2 : string) :
  let w := Session.run time acts in
  let c := now w in
  readings c (reads c) = readings c (S (S (reads c))) →
  let w' :=
    Session.run time (acts ++ [Session.AddAlert ty1 msg1; Session.AddAlert ty2 msg2]) in
  ∃ a b rest,
    alerts w' = b :: a :: rest ∧
    alert.message a = msg1 ∧ alert.message b = msg2 ∧
    alert.id a = alert.id b ∧
    ¬ NoDup (alert.id <$> alerts w').
Proof.
  intros w c Hsame w'.
  assert (w' = exec (App.addAlert ty2 msg2) (exec (App.addAlert ty1 msg1) w)) as ->.
  { subst w' w. unfold Session.run. by rewrite foldl_app. }
  unfold exec. rewrite !addAlert_unfold. cbn [snd alerts now readings reads].
  fold c.
  eexists _, _, _. split; [reflexivity|]. cbn [alert.message alert.id].
  repeat split; [done|].
  rewrite !fmap_cons. cbn [alert.id]. rewrite Hsame.
  intros Hnd. apply NoDup_cons in Hnd as [Hnotin _]. set_solver.
Qed.

(** Two pushes on the seeded ring under a clock that advances every eight
    reads: both alerts carry the same id. *)
Lemma addAlert_same_millisecond_same_id_witness :
  (let c := now (Session.run Session.slow_clock []) in
   readings c (reads c) = readings c (S (S (reads c)))) ∧
  ∃ a b rest,
    alerts (Session.run Session.slow_clock
              [Session.AddAlert "info" "first"; Session.AddAlert "info" "second"])
      = b :: a :: rest ∧
    alert.message a = "first" ∧ alert.message b = "second" ∧
    alert.id a = alert.id b ∧
    ¬ NoDup (alert.id <$>
               alerts (Session.run Session.slow_clock
                         [Session.AddAlert "info" "first";
                          Session.AddAlert "info" "second"])).
Proof.
  split; [reflexivity|].
  apply (addAlert_same_millisecond_same_id Session.slow_clock [] "info" "first" "info" "second").
  reflexivity.
Defined.

(** C8. [removeAlert] of an id that no alert of the ring carries returns
    normally and leaves the whole page, hence the ring, as it was; and
    removing an id a second time changes nothing, whether or not it was
    present. *)
Theorem removeAlert_absent_noop (w : page) (id : Z) :
  id ∉ (alert.id <$> alerts w) →
  App.removeAlert id w = (Some tt, w) ∧
  alerts (exec (App.removeAlert id) w) = alerts w ∧
  ∀ v : page,
    exec (App.removeAlert id) (exec (App.removeAlert id) v)
    = exec (App.removeAlert id) v.
Proof.
  intros Habsent.
  assert (filter (λ a, alert.id a ≠ id) (alerts w) = alerts w) as Hfilter.
  { revert Habsent. induction (alerts w) as [|a l IH]; [done|].
    rewrite fmap_cons, not_elem_of_cons. intros [Hne Hl].
    rewrite filter_cons_True by done. by rewrite IH. }
  split; [|split].
  - rewrite removeAlert_unfold, Hfilter. by destruct w.
  - unfold exec. by rewrite removeAlert_unfold.
  - intros v. unfold exec. rewrite !removeAlert_unfold. cbn.
    f_equal. rewrite list_filter_filter. apply list_filter_iff. tauto.
Qed.

(** Dismissing the id 99 on the seeded ring, whose ids are 1 and 2. *)
Lemma removeAlert_absent_noop_witness :
  (99%Z ∉ (alert.id <$> alerts (Session.mounted Session.slow_clock))) ∧
  App.removeAlert 99 (Session.mounted Session.slow_clock)
    = (Some tt, Session.mounted Session.slow_clock) ∧
  alerts (exec (App.removeAlert 99) (Session.mounted Session.slow_clock))
    = alerts (Session.mounted Session.slow_clock) ∧
  ∀ v : page,
    exec (App.removeAlert 99) (exec (App.removeAlert 99) v)
    = exec (App.removeAlert 99) v.
Proof.
  assert (99%Z ∉ (alert.id <$> alerts (Session.mounted Session.slow_clock))) as H.
  { assert (alert.id <$> alerts (Session.mounted Session.slow_clock) = [1; 2]%Z)
      as -> by reflexivity.
    rewrite !not_elem_of_cons. repeat split; [done..|apply not_elem_of_nil]. }
  split; [exact H|]. apply (removeAlert_absent_noop (Session.mounted Session.slow_clock) 99 H).
Defined.

(** ** The connection manager *)

Lemma bind_unfold {A B} (m : M A) (k : A → M B) (w : page) :
  (m ≫= k) w = match m w with
               | (Some a, w') => k a w'
               | (None, w') => (None, w')
               end.
Proof. reflexivity. Qed.

Lemma forEach_cons {A} (x : A) (l : list A) (f : A → M unit) (w : page) :
  forEach (x :: l) f w = match f x w with
                         | (Some _, w') => forEach l f w'
                         | (None, w') => (None, w')
                         end.
Proof. reflexivity. Qed.

(** What the socket does with an event: a listened event is appended to the
    log with the time of its arrival, any other event changes nothing. *)
Lemma receive_event (p : payload) (w : page) :
  SocketContext.receive (SocketContext.Event p) w =
  (Some tt,
   if Session.listened p then
     Page (Clock (readings (now w)) (S (reads (now w)))) (alerts w) (socket w)
          (connected w)
          (messages w ++ [message.Make p (readings (now w) (reads (now w)))])
          (wire w) (metrics w) (inventory w) (agents w) (recentMessages w)
          (sustainabilityData w)
   else w).
Proof. destruct p; reflexivity. Qed.

Lemma listened_kinds (p : payload) :
  Session.listened p = true ↔
  event_name p ∈ ["inventory_update"; "agent_message"; "optimization_result";
                  "system_metrics"].
Proof. unfold Session.listened. by rewrite bool_decide_eq_true. Qed.

(** Ingestion returns normally and appends the listened events in the
    order of delivery. *)
Lemma ingest_appends_listened (ps : list payload) (w : page) :
  let w' := exec (Session.ingest (SocketContext.Event <$> ps)) w in
  Session.ingest (SocketContext.Event <$> ps) w = (Some tt, w') ∧
  message.data <$> messages w' =
    (message.data <$> messages w) ++ filter (λ p, Session.listened p = true) ps.
Proof.
  revert w. induction ps as [|p ps IH]; intros w; cbn zeta.
  - split; [done|]. cbn. by rewrite app_nil_r.
  - unfold exec, Session.ingest in *.
    rewrite fmap_cons, forEach_cons, receive_event, filter_cons.
    destruct (Session.listened p) eqn:Hp.
    + rewrite decide_True by done.
      match goal with
      | |- context [forEach _ _ ?w1] => destruct (IH w1) as [IH1 IH2]
      end.
      split; [done|]. rewrite IH2. cbn [messages].
      by rewrite fmap_app, <- app_assoc.
    + rewrite decide_False by done. apply IH.
Qed.

(** For events of the four kinds that have a listener, the log grows by one
    entry per event and a panel meets the kinds in the order of delivery. *)
Lemma ingest_listened_in_order (ps : list payload) (time : nat → Z) :
  Forall (λ p, Session.listened p = true) ps →
  let w' := exec (Session.ingest (SocketContext.Event <$> ps)) (Session.mounted time) in
  length (messages w') = length ps ∧
  Session.observed_kinds w' = event_name <$> ps.
Proof.
  intros Hall w'.
  destruct (ingest_appends_listened ps (Session.mounted time)) as [_ Hlog].
  fold w' in Hlog. cbn [messages Session.mounted fmap list_fmap app] in Hlog.
  assert (filter (λ p, Session.listened p = true) ps = ps) as Hps.
  { clear -Hall. induction Hall as [|p ps Hp _ IH]; [done|].
    by rewrite filter_cons_True, IH by done. }
  rewrite Hps in Hlog. change (messages (Session.mounted time)) with (@nil message.t) in Hlog.
  cbn in Hlog. split.
  - by rewrite <- (length_fmap message.data), Hlog.
  - unfold Session.observed_kinds, message.type.
    by rewrite (list_fmap_compose message.data event_name), Hlog.
Qed.

(** C1. An event of kind [sustainability_update] is not ingested: the socket
    has no listener for it, so delivering it returns normally with the page,
    the log and the kinds a panel observes all unchanged; after this one
    delivery to the freshly mounted page the log has length 0, not 1. *)
Theorem sustainability_update_not_logged
    (data : gmap string jsval) (time : nat → Z) (w : page) :
  Session.ingest [SocketContext.Event (SustainabilityUpdate data)] w = (Some tt, w) ∧
  length
    (messages
       (exec (Session.ingest [SocketContext.Event (SustainabilityUpdate data)])
             (Session.mounted time))) = 0%nat ∧
  Session.observed_kinds
    (exec (Session.ingest [SocketContext.Event (SustainabilityUpdate data)])
          (Session.mounted time)) = [].
Proof. repeat split. Qed.

(** C3. [sendMessage] always returns normally.  While [connected] is false
    it changes nothing on the page: nothing is put on the wire and nothing is
    kept for later.  When [connected] is true and the socket exists, it is
    exactly [socket.emit(event, data)]: the command is put on the wire. *)
Theorem sendMessage_disconnected_silent (event : string) (data : jsval) (w : page) :
  (SocketContext.sendMessage event data w).1 = Some tt ∧
  (connected w = false →
   SocketContext.sendMessage event data w = (Some tt, w) ∧
   wire (exec (SocketContext.sendMessage event data) w) = wire w) ∧
  (connected w = true → is_Some (socket w) →
   SocketContext.sendMessage event data w = emit event data w ∧
   wire (exec (SocketContext.sendMessage event data) w) = wire w ++ [(event, data)]).
Proof.
  unfold exec, SocketContext.sendMessage. rewrite !bind_unfold. cbn [gets].
  rewrite !bind_unfold. cbn [gets].
  destruct (connected w) eqn:Hc, (socket w) as [s|] eqn:Hs; cbn;
    (split; [done|]); split; done.
Qed.

(** On the mounted page the command is dropped while the socket is not
    connected, and put on the wire once the transport has signalled
    [connect]. *)
Example sendMessage_before_and_after_connect :
  let w := Session.mounted Session.slow_clock in
  let w1 := exec (SocketContext.receive SocketContext.Connect) w in
  wire (exec (SocketContext.sendMessage "trigger_optimization" (JObj ∅)) w) = [] ∧
  wire (exec (SocketContext.sendMessage "trigger_optimization" (JObj ∅)) w1)
    = [("trigger_optimization", JObj ∅)].
Proof. repeat split. Qed.

(** ** The inventory panel *)

Lemma InventoryView_onMessage_update (data : inventory_update) (ts : Z) (w : page) :
  InventoryView.onMessage (message.Make (InventoryUpdate data) ts) w =
  App.addAlert "info"
    ("Inventory updated for " +:+ sku_id data +:+ " in " +:+ warehouse_id data)
    (exec (setInventory (InventoryView.update data)) w).
Proof. reflexivity. Qed.

(** ** The dashboard *)

(** C10. A [system_metrics] event is merged shallowly over [metrics]: a
    field that the payload does not name keeps its previous value, a field
    that it names takes the payload's value, and no other cell of the page
    changes. *)
Theorem system_metrics_merge_keeps_other_fields
    (data : gmap string jsval) (ts : Z) (w : page) (field : string) :
  data !! field = None →
  let w' := exec (Dashboard.onMessage (message.Make (SystemMetrics data) ts)) w in
  metrics w' !! field = metrics w !! field ∧
  (∀ k v, data !! k = Some v → metrics w' !! k = Some v) ∧
  Dashboard.onMessage (message.Make (SystemMetrics data) ts) w =
    setMetrics (λ prev, data ∪ prev) w.
Proof.
  intros Hfield w'. subst w'. unfold exec. cbn.
  unfold Dashboard.merge. repeat split.
  - rewrite lookup_union_r; done.
  - intros k v Hk. by apply lookup_union_Some_l.
Qed.

(** A payload that names only [serviceLevel] leaves [stockoutIncidents] at
    its initial value 3. *)
Lemma system_metrics_merge_keeps_other_fields_witness :
  ({[ "serviceLevel" := JNum (dec 99 100) ]} : gmap string jsval)
    !! "stockoutIncidents" = None ∧
  metrics
    (exec (Dashboard.onMessage
             (message.Make (SystemMetrics {[ "serviceLevel" := JNum (dec 99 100) ]}) 0))
          (Session.mounted Session.slow_clock))
    !! "stockoutIncidents" = Some (JNum (int 3)).
Proof.
  split; [reflexivity|].
  pose proof (system_metrics_merge_keeps_other_fields
                {[ "serviceLevel" := JNum (dec 99 100) ]} 0
                (Session.mounted Session.slow_clock) "stockoutIncidents"
                eq_refl) as [H _].
  rewrite H. reflexivity.
Defined.

(** ** The agent panel *)

Lemma keeps_ret {A} (I : page → Prop) (a : A) : keeps I (mret a).
Proof. by intros w Hw. Qed.

Lemma keeps_throw {A} (I : page → Prop) : keeps I (@throw A).
Proof. by intros w Hw. Qed.

Lemma keeps_gets {A} (I : page → Prop) (f : page → A) : keeps I (gets f).
Proof. by intros w Hw. Qed.

Lemma keeps_bind {A B} (I : page → Prop) (m : M A) (k : A → M B) :
  keeps I m → (∀ a, keeps I (k a)) → keeps I (m ≫= k).
Proof.
  intros Hm Hk w Hw. unfold exec. rewrite bind_unfold.
  specialize (Hm w Hw). unfold exec in Hm.
  destruct (m w) as [[a|] w']; [apply Hk|]; done.
Qed.

Lemma keeps_forEach {A} (I : page → Prop) (l : list A) (f : A → M unit) :
  (∀ x, keeps I (f x)) → keeps I (forEach l f).
Proof.
  intros Hf. induction l as [|x l IH]; [apply keeps_ret|].
  apply (keeps_bind I (f x) (λ _, forEach l f)); [apply Hf|done].
Qed.

Lemma initial_never_counts (time : nat → Z) : AgentStatus.never_counts (Session.mounted time).
Proof.
  intros k Hk. unfold AgentStatus.uncounted in Hk.
  rewrite !elem_of_cons, elem_of_nil in Hk.
  destruct Hk as [->|[->|[->|[]]]]; eexists; (split; [reflexivity|by left]).
Qed.

Lemma update_never_counts (key : string) (t : Z) :
  keeps AgentStatus.never_counts (setAgents (AgentStatus.update key t)).
Proof.
  intros w Hw. unfold exec, setAgents.
  destruct (AgentStatus.update key t (agents w)) as [new|] eqn:Hu; [|done].
  unfold AgentStatus.never_counts. cbn [snd agents]. intros k Hk.
  destruct (Hw k Hk) as (b & Hb & Hmp).
  unfold AgentStatus.update, AgentStatus.get in Hu.
  destruct (decide (key = k)) as [->|Hne].
  - rewrite Hb in Hu. injection Hu as <-.
    rewrite lookup_insert_eq. eexists; split; [done|].
    cbn [agent.messagesProcessed]. right. by destruct Hmp as [-> | ->].
  - destruct (agents w !! key) as [a|]; [|case_bool_decide; [|done]];
      injection Hu as <-; rewrite lookup_insert_ne by done; eauto.
Qed.

Lemma onMessage_never_counts (captured : gmap string agent.t) (m : message.t) :
  keeps AgentStatus.never_counts (AgentStatus.onMessage captured m).
Proof.
  unfold AgentStatus.onMessage.
  destruct (message.data m) as [|d| | |]; try apply keeps_ret.
  destruct (AgentStatus.agentKey_of d) as [key|]; [|apply keeps_ret].
  destruct (_ && _); [|apply keeps_ret].
  apply keeps_bind; [by intros w Hw|]. intros t.
  apply keeps_bind; [apply update_never_counts|].
  intros _. apply keeps_bind; [by intros w Hw|]. intros id.
  apply keeps_bind; [destruct (content d); by intros w Hw|]. intros json.
  apply keeps_bind; by intros w Hw.
Qed.

Lemma effect_never_counts : keeps AgentStatus.never_counts AgentStatus.effect.
Proof.
  apply keeps_bind; [apply keeps_gets|]. intros msgs.
  apply keeps_bind; [apply keeps_gets|]. intros captured.
  apply keeps_forEach. intros m. apply onMessage_never_counts.
Qed.

Lemma receive_never_counts (s : SocketContext.signal) :
  keeps AgentStatus.never_counts (SocketContext.receive s).
Proof.
  intros w Hw. destruct s as [| |p]; try done.
  unfold exec. rewrite receive_event. by destruct (Session.listened p).
Qed.

(** How the panel handles an [agent_message] whose lowercased sender passes
    the guard. *)
Lemma onMessage_known (captured : gmap string agent.t) (d : agent_message)
    (ts : Z) (key : string) (w : page) :
  AgentStatus.agentKey_of d = Some key →
  AgentStatus.truthy_key (Some key) && AgentStatus.truthy (AgentStatus.get captured key) = true →
  agents (exec (AgentStatus.onMessage captured (message.Make (AgentMessage d) ts)) w) =
  default (agents w)
          (AgentStatus.update key (readings (now w) (reads (now w))) (agents w)).
Proof.
  intros Hkey Hguard. unfold exec, AgentStatus.onMessage. cbn [message.data].
  rewrite Hkey, Hguard. rewrite bind_unfold. cbn [new_Date Date_now tick].
  rewrite bind_unfold. unfold setAgents at 1. cbn [agents now readings reads].
  destruct (AgentStatus.update _ _ _) as [a'|]; [|done].
  destruct (content d); reflexivity.
Qed.

(** An [agent_message] whose lowercased sender is neither a key of the
    captured [agents] object nor the name of a member of [Object.prototype]
    changes nothing; so does one without sender. *)
Lemma onMessage_unknown (captured : gmap string agent.t) (d : agent_message)
    (ts : Z) (w : page) :
  (∀ key, AgentStatus.agentKey_of d = Some key →
          captured !! key = None ∧ key ∉ AgentStatus.Object_prototype) →
  AgentStatus.onMessage captured (message.Make (AgentMessage d) ts) w = (Some tt, w).
Proof.
  intros Hunknown. unfold AgentStatus.onMessage. cbn [message.data].
  destruct (AgentStatus.agentKey_of d) as [key|]; [|done].
  destruct (Hunknown key eq_refl) as [Hown Hproto].
  unfold AgentStatus.get. rewrite Hown, bool_decide_eq_false_2 by done.
  by rewrite andb_false_r.
Qed.

(** The scenario [from_agent: 'UNKNOWN']: the four agent records and the
    recent messages are untouched. *)
Lemma onMessage_UNKNOWN (to type : jsval) (json : option string) (ts : Z)
    (time : nat → Z) :
  let w := Session.mounted time in
  AgentStatus.onMessage (agents w)
    (message.Make (AgentMessage (Build_agent_message (Some "UNKNOWN") to type json)) ts) w
  = (Some tt, w).
Proof. reflexivity. Qed.

(** C6. An [agent_message] from the sender ['constructor'], which is none
    of the four agent keys, does change the panel: [agents['constructor']]
    finds the function inherited from [Object.prototype], the guard passes,
    and the update stores under [constructor] a record with only
    [lastActivity] and a [messagesProcessed] of [NaN]; when the payload has
    a content, an entry is also added to the recent messages. *)
Theorem agent_message_constructor_changes_state
    (time : nat → Z) (to type : jsval) (json : string) :
  let d := Build_agent_message (Some "constructor") to type (Some json) in
  let w := Session.mounted time in
  let w' := exec (Session.deliver AgentStatus.effect
                    [SocketContext.Event (AgentMessage d)]) w in
  (toLowerCase "constructor" ∉ ["demand"; "supply"; "logistics"; "negotiation"]) ∧
  agents w !! "constructor" = None ∧
  agents w' !! "constructor" =
    Some (agent.Make None None (Some (time 11%nat)) (Some NaN) ∅ None) ∧
  agents w' ≠ agents w ∧
  length (recentMessages w') = S (length (recentMessages w)).
Proof.
  intros d w w'.
  assert (agents w' !! "constructor" =
          Some (agent.Make None None (Some (time 11%nat)) (Some NaN) ∅ None)) as Hnew
    by reflexivity.
  split; [|split; [reflexivity|split; [exact Hnew|split; [|reflexivity]]]].
  - cbn. rewrite !not_elem_of_cons. repeat split; try done. apply not_elem_of_nil.
  - intros Heq. rewrite Heq in Hnew. discriminate Hnew.
Qed.

(** ** Panels that follow the log *)

Section Follow.

Context {S : Type} (h : message.t → M unit) (obs : page → S)
        (handle : payload → S → S).

(** The handler returns normally, leaves the log alone, and acts on the
    observed cells as [handle] says. *)
Hypothesis h_spec : ∀ m w, ∃ w',
  h m w = (Some tt, w') ∧ messages w' = messages w ∧
  obs w' = handle (message.data m) (obs w).

(** The observed cells are neither the clock nor the log. *)
Hypothesis obs_frame : ∀ w c msgs,
  obs (Page c (alerts w) (socket w) (connected w) msgs (wire w) (metrics w)
            (inventory w) (agents w) (recentMessages w) (sustainabilityData w))
  = obs w.

Let effect : M unit := msgs ← gets messages; forEach msgs h.

Lemma forEach_handles (msgs : list message.t) (w : page) : ∃ w',
  forEach msgs h w = (Some tt, w') ∧ messages w' = messages w ∧
  obs w' = foldl (λ s p, handle p s) (obs w) (message.data <$> msgs).
Proof.
  revert w. induction msgs as [|m msgs IH]; intros w; [by exists w|].
  rewrite forEach_cons. destruct (h_spec m w) as (w1 & -> & Hm1 & Ho1).
  destruct (IH w1) as (w2 & -> & Hm2 & Ho2).
  exists w2. split; [done|]. split; [congruence|].
  by rewrite fmap_cons, Ho2, Ho1.
Qed.

Lemma follow_handles (p : payload) (w : page) : ∃ w',
  Session.follow effect (SocketContext.Event p) w = (Some tt, w') ∧
  message.data <$> messages w' =
    (message.data <$> messages w) ++ (if Session.listened p then [p] else []) ∧
  obs w' = foldl (λ s p, handle p s) (obs w)
             (if Session.listened p then (message.data <$> messages w) ++ [p] else []).
Proof.
  unfold Session.follow. rewrite bind_unfold. cbn [gets].
  rewrite bind_unfold, receive_event, bind_unfold. cbn [gets].
  destruct (Session.listened p).
  - cbn [messages]. rewrite length_app. cbn [length].
    rewrite bool_decide_eq_true_2 by lia.
    unfold effect. rewrite bind_unfold. cbn [gets messages].
    match goal with
    | |- context [forEach ?l h ?w1] =>
        destruct (forEach_handles l w1) as (w' & -> & Hm & Ho)
    end.
    exists w'. split; [done|]. cbn [messages] in Hm. rewrite Hm.
    split; [by rewrite fmap_app|].
    by rewrite Ho, obs_frame, fmap_app.
  - rewrite bool_decide_eq_false_2 by lia.
    exists w. by rewrite app_nil_r.
Qed.

Lemma deliver_handles (ps : list payload) (w : page) : ∃ w',
  Session.deliver effect (SocketContext.Event <$> ps) w = (Some tt, w') ∧
  message.data <$> messages w' =
    (message.data <$> messages w) ++ filter (λ p, Session.listened p = true) ps ∧
  obs w' = foldl (λ s p, handle p s) (obs w)
             (Session.scans_from (message.data <$> messages w)
                         (filter (λ p, Session.listened p = true) ps)).
Proof.
  revert w. induction ps as [|p ps IH]; intros w.
  - exists w. by rewrite app_nil_r.
  - unfold Session.deliver in *. rewrite fmap_cons, forEach_cons.
    destruct (follow_handles p w) as (w1 & -> & Hm1 & Ho1).
    destruct (IH w1) as (w2 & -> & Hm2 & Ho2).
    exists w2. split; [done|]. rewrite Hm2, Ho2, Hm1, Ho1, filter_cons.
    destruct (Session.listened p).
    + rewrite decide_True by done. cbn [Session.scans_from].
      split; [by rewrite <- app_assoc|symmetry; apply foldl_app].
    + rewrite decide_False by done. by rewrite app_nil_r.
Qed.

End Follow.

(** What the handler of the inventory panel does to the inventory and to
    the notices of the ring. *)
Lemma InventoryView_handles (m : message.t) (w : page) : ∃ w',
  InventoryView.onMessage m w = (Some tt, w') ∧ messages w' = messages w ∧
  (inventory w', Session.notice <$> alerts w') =
    match message.data m with
    | InventoryUpdate d =>
        (InventoryView.update d (inventory w),
         Session.inventory_notice d :: take 9 (Session.notice <$> alerts w))
    | _ => (inventory w, Session.notice <$> alerts w)
    end.
Proof.
  exists (exec (InventoryView.onMessage m) w).
  destruct m as [[d|d|d|d|d] ts]; (split; [reflexivity|]);
    (split; [reflexivity|]); try reflexivity.
  unfold exec. rewrite InventoryView_onMessage_update, addAlert_unfold.
  cbn. by rewrite fmap_take.
Qed.

Lemma Dashboard_handles (m : message.t) (w : page) : ∃ w',
  Dashboard.onMessage m w = (Some tt, w') ∧ messages w' = messages w ∧
  (metrics w', Session.notice <$> alerts w') =
    match message.data m with
    | SystemMetrics d => (Dashboard.merge d (metrics w), Session.notice <$> alerts w)
    | OptimizationResult d =>
        (metrics w,
         Session.optimization_notice d :: take 9 (Session.notice <$> alerts w))
    | _ => (metrics w, Session.notice <$> alerts w)
    end.
Proof.
  exists (exec (Dashboard.onMessage m) w).
  destruct m as [[d|d|d|d|d] ts]; (split; [reflexivity|]);
    (split; [reflexivity|]); try reflexivity.
  unfold exec, Dashboard.onMessage. cbn [message.data].
  rewrite addAlert_unfold. cbn. by rewrite fmap_take.
Qed.

(** * Further properties of the page at work *)

(** ** What every step preserves *)

Lemma receive_event_store (p : payload) (w : page) :
  SocketContext.receive (SocketContext.Event p) w =
  if Session.listened p then SocketContext.store p w else (Some tt, w).
Proof. destruct p; reflexivity. Qed.

Lemma keeps_forEach_in {A} (I : page → Prop) (l : list A) (f : A → M unit) :
  (∀ x, x ∈ l → keeps I (f x)) → keeps I (forEach l f).
Proof.
  induction l as [|x l IH]; intros Hf; [apply keeps_ret|].
  apply (keeps_bind I (f x) (λ _, forEach l f)).
  - apply Hf. by left.
  - intros _. apply IH. intros y Hy. apply Hf. by right.
Qed.

Lemma keeps_sendMessage (I : page → Prop) (event : string) (data : jsval) :
  keeps I (emit event data) → keeps I (SocketContext.sendMessage event data).
Proof.
  intros Hemit. apply keeps_bind; [apply keeps_gets|]. intros s.
  apply keeps_bind; [apply keeps_gets|]. intros c.
  destruct (_ && _); [done|apply keeps_ret].
Qed.

(** [sendMessage] while the page is not connected keeps any property. *)
Lemma sendMessage_offline (event : string) (data : jsval) (w : page) :
  connected w = false → SocketContext.sendMessage event data w = (Some tt, w).
Proof.
  intros Hc. unfold SocketContext.sendMessage. rewrite !bind_unfold. cbn [gets].
  rewrite bind_unfold. cbn [gets]. by rewrite Hc, andb_false_r.
Qed.

Section Steps.

Variable Number_toString : Qc → string.
Variable I : page → Prop.

Hypothesis I_clock : keeps I Date_now.
Hypothesis I_addAlert : ∀ type message, keeps I (App.addAlert type message).
Hypothesis I_removeAlert : ∀ id, keeps I (App.removeAlert id).
Hypothesis I_connected : ∀ b, keeps I (setConnected b).
Hypothesis I_store : ∀ p, Session.listened p = true → keeps I (SocketContext.store p).
Hypothesis I_emit : ∀ event data, keeps I (emit event data).
Hypothesis I_metrics : ∀ f, keeps I (setMetrics f).
Hypothesis I_inventory : ∀ f, keeps I (setInventory f).
Hypothesis I_agents : ∀ key t, keeps I (setAgents (AgentStatus.update key t)).
Hypothesis I_recent : ∀ m, keeps I (setRecentMessages (λ prev, m :: take 9 prev)).
Hypothesis I_sustainability : keeps I SustainabilityMetrics.effect.

Lemma keeps_receive (s : SocketContext.signal) : keeps I (SocketContext.receive s).
Proof.
  destruct s as [| |p]; [apply I_connected..|].
  intros w Hw. unfold exec. rewrite receive_event_store.
  destruct (Session.listened p) eqn:Hp; [by apply I_store|done].
Qed.

Lemma keeps_Dashboard_effect : keeps I Dashboard.effect.
Proof.
  apply keeps_bind; [apply keeps_gets|]. intros msgs.
  apply keeps_forEach. intros [[d|d|d|d|d] ts]; try apply keeps_ret.
  - apply I_addAlert.
  - apply I_metrics.
Qed.

Lemma keeps_InventoryView_effect : keeps I InventoryView.effect.
Proof.
  apply keeps_bind; [apply keeps_gets|]. intros msgs.
  apply keeps_forEach. intros [[d|d|d|d|d] ts]; try apply keeps_ret.
  apply keeps_bind; [apply I_inventory|]. intros _. apply I_addAlert.
Qed.

Lemma keeps_AgentStatus_effect : keeps I AgentStatus.effect.
Proof.
  apply keeps_bind; [apply keeps_gets|]. intros msgs.
  apply keeps_bind; [apply keeps_gets|]. intros captured.
  apply keeps_forEach. intros [[d|d|d|d|d] ts]; try apply keeps_ret.
  unfold AgentStatus.onMessage. cbn [message.data].
  destruct (AgentStatus.agentKey_of d) as [key|]; [|apply keeps_ret].
  destruct (_ && _); [|apply keeps_ret].
  apply keeps_bind; [apply I_clock|]. intros t.
  apply keeps_bind; [apply I_agents|]. intros _.
  apply keeps_bind; [apply I_clock|]. intros id.
  apply keeps_bind; [destruct (content d); [apply keeps_ret|apply keeps_throw]|].
  intros json. apply keeps_bind; [apply I_clock|]. intros timestamp.
  apply I_recent.
Qed.

Lemma keeps_effect_of (p : Play.panel) : keeps I (Play.effect_of p).
Proof.
  destruct p; [apply keeps_Dashboard_effect|apply keeps_InventoryView_effect|
               apply keeps_AgentStatus_effect|apply I_sustainability].
Qed.

Lemma keeps_click (b : Play.button) : keeps I (Play.click b).
Proof.
  destruct b; (apply keeps_bind; [apply keeps_sendMessage, I_emit|]);
    intros _; apply I_addAlert.
Qed.

Lemma keeps_confirmReorder (d : InventoryControls.dialog) :
  keeps I (InventoryControls.confirmReorder Number_toString d).
Proof.
  unfold InventoryControls.confirmReorder.
  destruct (InventoryControls.selectedSKU d) as [sku|]; [|apply keeps_ret].
  destruct (negb _); [|apply keeps_ret].
  destruct (InventoryControls.positive _) as [q|]; [|apply keeps_ret].
  apply keeps_bind; [apply keeps_sendMessage, I_emit|]. intros _.
  apply keeps_bind; [apply I_addAlert|]. intros _. apply keeps_ret.
Qed.

(** A step that sends nothing keeps [I] even when [emit] does not. *)
Lemma keeps_quiet (s : Play.step) :
  Play.sends s = false → keeps I (Play.perform Number_toString s).
Proof.
  destruct s as [s|p|b|d|id]; try done; intros _.
  - apply keeps_receive.
  - apply keeps_effect_of.
  - apply I_removeAlert.
Qed.

Lemma keeps_perform (s : Play.step) : keeps I (Play.perform Number_toString s).
Proof.
  destruct s as [s|p|b|d|id].
  - apply keeps_receive.
  - apply keeps_effect_of.
  - apply keeps_click.
  - apply keeps_bind; [apply keeps_confirmReorder|]. intros _. apply keeps_ret.
  - apply I_removeAlert.
Qed.

Lemma keeps_play (steps : list Play.step) : keeps I (Play.play Number_toString steps).
Proof. apply keeps_forEach, keeps_perform. Qed.

Lemma keeps_play_quiet (steps : list Play.step) :
  Forall (λ s, Play.sends s = false) steps → keeps I (Play.play Number_toString steps).
Proof.
  intros Hq. apply keeps_forEach_in. intros s Hs. apply keeps_quiet.
  by eapply Forall_forall in Hq.
Qed.

End Steps.

(** The effect of the sustainability panel keeps what neither the alert
    ring nor the cell of the panel can break. *)
Lemma keeps_Sustainability_effect (I : page → Prop) :
  (∀ type message, keeps I (App.addAlert type message)) →
  (∀ f, keeps I (setSustainabilityData f)) →
  keeps I SustainabilityMetrics.effect.
Proof.
  intros Hadd Hset.
  apply keeps_bind; [apply keeps_gets|]. intros msgs.
  apply keeps_forEach. intros [[d|d|d|d|d] ts]; try apply keeps_ret.
  apply keeps_bind; [apply Hset|]. intros _. apply Hadd.
Qed.

(** ** The log, the wire and the ring over a whole session *)

(** Closes [keeps I m] when [m] leaves alone the cells that [I] reads. *)
Ltac untouched :=
  intros;
  lazymatch goal with
  | |- keeps _ _ =>
      let w := fresh "w" in
      let H := fresh "H" in
      intros w H; unfold exec, setAgents in *;
      try match goal with
          | |- context [AgentStatus.update ?k ?t ?a] =>
              destruct (AgentStatus.update k t a)
          end;
      first [exact H | done]
  end.

(** X1. Nothing that happens on the page removes, reorders or alters a
    stored event: after any steps, the log at the start is a prefix of the
    log at the end. *)
Theorem log_append_only
    (Number_toString : Qc → string) (steps : list Play.step) (w : page) :
  messages w `prefix_of` messages (exec (Play.play Number_toString steps) w).
Proof.
  apply (keeps_play Number_toString (λ w', messages w `prefix_of` messages w'));
    try untouched.
  - intros p _ w' Hw'. by apply prefix_app_r.
  - apply keeps_Sustainability_effect; untouched.
  - done.
Qed.

(** X2. A command dropped by [sendMessage] while the page is not connected
    is never sent afterwards: signals (a later [connect] included), effect
    runs and dismissals put nothing on the wire. *)
Theorem dropped_command_is_never_sent
    (Number_toString : Qc → string) (event : string) (data : jsval)
    (steps : list Play.step) (w : page) :
  connected w = false →
  Forall (λ s, Play.sends s = false) steps →
  wire (exec (Play.play Number_toString steps)
             (exec (SocketContext.sendMessage event data) w)) = wire w.
Proof.
  intros Hoff Hquiet. unfold exec at 2. rewrite sendMessage_offline by done.
  apply (keeps_play_quiet Number_toString (λ w', wire w' = wire w));
    try done; try untouched.
  apply keeps_Sustainability_effect; untouched.
Qed.

(** A reorder command sent before the transport connects, then a connect
    signal, an event and an effect run. *)
Lemma dropped_command_is_never_sent_witness :
  let steps := [ Play.Signal SocketContext.Connect;
                 Play.Signal (SocketContext.Event (SystemMetrics ∅));
                 Play.Effect Play.DashboardPanel; Play.Dismiss 1 ] in
  connected (Session.mounted Session.slow_clock) = false ∧
  Forall (λ s, Play.sends s = false) steps ∧
  wire (exec (Play.play (λ _, "") steps)
             (exec (SocketContext.sendMessage "trigger_optimization" (JObj ∅))
                   (Session.mounted Session.slow_clock))) = [].
Proof.
  cbv zeta.
  assert (Forall (λ s, Play.sends s = false)
            [ Play.Signal SocketContext.Connect;
              Play.Signal (SocketContext.Event (SystemMetrics ∅));
              Play.Effect Play.DashboardPanel; Play.Dismiss 1 ]) as Hq
    by (repeat constructor).
  split; [reflexivity|]. split; [exact Hq|].
  exact (dropped_command_is_never_sent (λ _, "") "trigger_optimization" (JObj ∅)
           _ (Session.mounted Session.slow_clock) eq_refl Hq).
Defined.

(** X3. The ring holds at most 10 alerts throughout a session, whatever the
    panels, the buttons, the dialog and the transport do. *)
Theorem ring_never_exceeds_10
    (Number_toString : Qc → string) (steps : list Play.step) (w : page) :
  (length (alerts w) ≤ 10)%nat →
  (length (alerts (exec (Play.play Number_toString steps) w)) ≤ 10)%nat.
Proof.
  intros Hw.
  assert (∀ type message,
            keeps (λ w', (length (alerts w') ≤ 10)%nat) (App.addAlert type message))
    as Hadd.
  { intros ty msg w' _. unfold exec. rewrite addAlert_unfold. cbn.
    pose proof (take_9_length (alerts w')). lia. }
  apply (keeps_play Number_toString (λ w', (length (alerts w') ≤ 10)%nat));
    try done; try untouched.
  - intros id w' Hw'. unfold exec. rewrite removeAlert_unfold. cbn [snd alerts].
    etrans; [apply length_filter|done].
  - apply keeps_Sustainability_effect; [done|untouched].
Qed.

Lemma ring_never_exceeds_10_witness :
  (length (alerts (Session.mounted Session.slow_clock)) ≤ 10)%nat ∧
  (length (alerts (exec (Play.play (λ _, "")
                           (replicate 12 (Play.Click Play.TriggerOptimization)))
                        (Session.mounted Session.slow_clock))) ≤ 10)%nat.
Proof.
  assert (length (alerts (Session.mounted Session.slow_clock)) ≤ 10)%nat as H
    by (vm_compute; lia).
  split; [exact H|].
  exact (ring_never_exceeds_10 (λ _, "") _ (Session.mounted Session.slow_clock) H).
Defined.

(** ** The connection *)

Lemma receive_returns (s : SocketContext.signal) (w : page) :
  SocketContext.receive s w = (Some tt, exec (SocketContext.receive s) w).
Proof.
  destruct s as [| |p]; try reflexivity.
  unfold exec. rewrite receive_event_store. by destruct (Session.listened p).
Qed.

Lemma ingest_returns (ss : list SocketContext.signal) (w : page) :
  Session.ingest ss w = (Some tt, exec (Session.ingest ss) w).
Proof.
  revert w. induction ss as [|s ss IH]; intros w; [done|].
  unfold exec, Session.ingest in *. rewrite forEach_cons, receive_returns.
  apply IH.
Qed.

Lemma ingest_app (ss1 ss2 : list SocketContext.signal) (w : page) :
  exec (Session.ingest (ss1 ++ ss2)) w
  = exec (Session.ingest ss2) (exec (Session.ingest ss1) w).
Proof.
  revert w. induction ss1 as [|s ss1 IH]; intros w; [done|].
  unfold exec, Session.ingest in *. cbn [app].
  rewrite !forEach_cons, receive_returns. apply IH.
Qed.

Lemma ingest_keeps (I : page → Prop) (ss : list SocketContext.signal) :
  (∀ b, keeps I (setConnected b)) → (∀ p, keeps I (SocketContext.store p)) →
  keeps I (Session.ingest ss).
Proof.
  intros Hc Hs. apply keeps_forEach. intros [| |p]; [apply Hc..|].
  intros w Hw. unfold exec. rewrite receive_event_store.
  destruct (Session.listened p); [by apply Hs|done].
Qed.

Lemma ingest_events_connected (ps : list payload) (w : page) :
  connected (exec (Session.ingest (SocketContext.Event <$> ps)) w) = connected w.
Proof.
  revert w. induction ps as [|p ps IH]; intros w; [done|].
  unfold exec, Session.ingest in *. rewrite fmap_cons, forEach_cons, receive_returns.
  rewrite IH. unfold exec. rewrite receive_event_store.
  by destruct (Session.listened p).
Qed.

(** X4. Whether [sendMessage] forwards a command depends on the last
    [connect] or [disconnect] signal only: after a [disconnect], however
    many events follow, the command is dropped and the page is unchanged;
    after a [connect], however many events follow, the command is put on
    the wire, provided the socket has been created.  The signals that came
    before do not matter, and no signal writes to the wire. *)
Theorem sendMessage_follows_last_signal
    (before : list SocketContext.signal) (ps : list payload)
    (event : string) (data : jsval) (w : page) :
  let on := exec (Session.ingest
                    (before ++ SocketContext.Connect :: (SocketContext.Event <$> ps))) w in
  let off := exec (Session.ingest
                     (before ++ SocketContext.Disconnect :: (SocketContext.Event <$> ps))) w in
  connected on = true ∧
  connected off = false ∧
  SocketContext.sendMessage event data off = (Some tt, off) ∧
  wire off = wire w ∧
  (is_Some (socket w) →
   wire (exec (SocketContext.sendMessage event data) on) = wire w ++ [(event, data)]).
Proof.
  intros on off.
  assert (connected on = true) as Hon.
  { subst on. rewrite ingest_app. change (?a :: ?l) with ([a] ++ l).
    by rewrite ingest_app, ingest_events_connected. }
  assert (connected off = false) as Hoff.
  { subst off. rewrite ingest_app. change (?a :: ?l) with ([a] ++ l).
    by rewrite ingest_app, ingest_events_connected. }
  assert (∀ ss, wire (exec (Session.ingest ss) w) = wire w
                ∧ socket (exec (Session.ingest ss) w) = socket w) as Hframe.
  { intros ss.
    apply (ingest_keeps (λ w', wire w' = wire w ∧ socket w' = socket w));
      try done; untouched. }
  split; [done|]. split; [done|].
  split; [by apply sendMessage_offline|].
  split; [apply Hframe|].
  intros Hsock. destruct (Hframe (before ++ SocketContext.Connect
                                    :: (SocketContext.Event <$> ps))) as [Hwire Hs].
  fold on in Hwire, Hs.
  destruct Hsock as [s Hsock]. rewrite <- Hs in Hsock.
  unfold exec, SocketContext.sendMessage. rewrite !bind_unfold. cbn [gets].
  rewrite bind_unfold. cbn [gets]. rewrite Hon, Hsock. cbn. by rewrite Hwire.
Qed.

(** ** Pushing and dismissing alerts *)

Lemma filter_absent_id (id : Z) (l : list alert.t) :
  id ∉ (alert.id <$> l) → filter (λ a, alert.id a ≠ id) l = l.
Proof.
  induction l as [|a l IH]; [done|].
  rewrite fmap_cons, not_elem_of_cons. intros [Hne Hl].
  rewrite filter_cons_True by done. by rewrite IH.
Qed.

Lemma absent_id_take (id : Z) (n : nat) (l : list alert.t) :
  id ∉ (alert.id <$> l) → id ∉ (alert.id <$> take n l).
Proof.
  intros Hl Hin. apply Hl. rewrite fmap_take in Hin.
  by apply (subseteq_take n) in Hin.
Qed.

(** X5. Pushing an alert and dismissing it at once leaves the first 9
    alerts of the ring as it was before: the ring is restored exactly when
    it held at most 9 alerts, and a full ring has lost its oldest alert for
    good.  (The pushed id must not already be in the ring.) *)
Theorem addAlert_then_removeAlert (type message : string) (w : page) :
  let id := readings (now w) (reads (now w)) in
  id ∉ (alert.id <$> alerts w) →
  let w' := exec (App.removeAlert id) (exec (App.addAlert type message) w) in
  alerts w' = take 9 (alerts w) ∧
  (alerts w' = alerts w ↔ (length (alerts w) ≤ 9)%nat).
Proof.
  intros id Hfresh w'.
  assert (alerts w' = take 9 (alerts w)) as Hw'.
  { subst w'. unfold exec. rewrite addAlert_unfold. cbn [snd].
    rewrite removeAlert_unfold. cbn [snd alerts now readings reads].
    rewrite filter_cons_False by (cbn; tauto).
    by apply filter_absent_id, absent_id_take. }
  split; [done|]. rewrite Hw'. split.
  - intros Heq. rewrite <- Heq, length_take. lia.
  - intros Hlen. by apply take_ge.
Qed.

Lemma addAlert_then_removeAlert_witness :
  let w := Session.mounted Session.slow_clock in
  let id := readings (now w) (reads (now w)) in
  (id ∉ (alert.id <$> alerts w)) ∧
  alerts (exec (App.removeAlert id) (exec (App.addAlert "info" "saved") w))
    = alerts w.
Proof.
  cbv zeta.
  assert (readings (now (Session.mounted Session.slow_clock))
                   (reads (now (Session.mounted Session.slow_clock)))
          ∉ (alert.id <$> alerts (Session.mounted Session.slow_clock))) as H.
  { assert (alert.id <$> alerts (Session.mounted Session.slow_clock) = [1; 2]%Z)
      as -> by reflexivity.
    assert (readings (now (Session.mounted Session.slow_clock))
                     (reads (now (Session.mounted Session.slow_clock)))
            = 1762066800001%Z) as -> by reflexivity.
    rewrite !not_elem_of_cons. repeat split; [done..|apply not_elem_of_nil]. }
  split; [exact H|].
  destruct (addAlert_then_removeAlert "info" "saved"
              (Session.mounted Session.slow_clock) H) as [Heq _].
  exact (eq_trans Heq eq_refl).
Defined.

(** X6. When two alerts were pushed within the same millisecond, one
    dismissal removes them both: the ring is left with the first 8 alerts
    it held before the two pushes. *)
Theorem one_dismissal_removes_both_alerts
    (ty1 msg1 ty2 msg2 : string) (w : page) :
  let c := now w in
  let id := readings c (reads c) in
  readings c (S (S (reads c))) = id →
  id ∉ (alert.id <$> alerts w) →
  let pushed := exec (App.addAlert ty2 msg2) (exec (App.addAlert ty1 msg1) w) in
  alert.id <$> take 2 (alerts pushed) = [id; id] ∧
  alerts (exec (App.removeAlert id) pushed) = take 8 (alerts w).
Proof.
  intros c id Hsame Hfresh pushed. subst pushed. unfold exec.
  rewrite !addAlert_unfold. cbn [snd]. rewrite removeAlert_unfold.
  cbn [snd alerts now readings reads take fmap list_fmap alert.id].
  fold c. rewrite Hsame. split; [done|].
  rewrite !filter_cons_False by (cbn; tauto).
  rewrite take_take. by apply filter_absent_id, absent_id_take.
Qed.

Lemma one_dismissal_removes_both_alerts_witness :
  let w := Session.mounted Session.slow_clock in
  let id := readings (now w) (reads (now w)) in
  (readings (now w) (S (S (reads (now w)))) = id ∧
   id ∉ (alert.id <$> alerts w)) ∧
  alerts (exec (App.removeAlert id)
               (exec (App.addAlert "info" "second")
                     (exec (App.addAlert "info" "first") w)))
    = alerts w.
Proof.
  cbv zeta.
  assert (readings (now (Session.mounted Session.slow_clock))
                   (reads (now (Session.mounted Session.slow_clock)))
          ∉ (alert.id <$> alerts (Session.mounted Session.slow_clock))) as H.
  { assert (alert.id <$> alerts (Session.mounted Session.slow_clock) = [1; 2]%Z)
      as -> by reflexivity.
    assert (readings (now (Session.mounted Session.slow_clock))
                     (reads (now (Session.mounted Session.slow_clock)))
            = 1762066800001%Z) as -> by reflexivity.
    rewrite !not_elem_of_cons. repeat split; [done..|apply not_elem_of_nil]. }
  split; [split; [reflexivity|exact H]|].
  destruct (one_dismissal_removes_both_alerts "info" "first" "info" "second"
              (Session.mounted Session.slow_clock) eq_refl H) as [_ Heq].
  exact (eq_trans Heq eq_refl).
Defined.

(** ** The buttons of the dashboard *)

Lemma sendMessage_unfold (event : string) (data : jsval) (w : page) :
  SocketContext.sendMessage event data w =
  if bool_decide (is_Some (socket w)) && connected w
  then emit event data w else (Some tt, w).
Proof.
  unfold SocketContext.sendMessage. rewrite !bind_unfold. cbn [gets].
  rewrite bind_unfold. cbn [gets]. by destruct (_ && _).
Qed.

(** X7. Each dashboard button announces its action in the ring whether or
    not the command went out: the press returns normally, the newest alert
    is the notice of the button, and the command is on the wire only if the
    socket exists and is connected; otherwise the wire is unchanged and the
    notice is raised all the same.  The log is never touched. *)
Theorem button_announces_even_when_command_is_dropped (b : Play.button) (w : page) :
  let w' := exec (Play.click b) w in
  let sent := bool_decide (is_Some (socket w)) && connected w in
  Play.click b w = (Some tt, w') ∧
  head (Session.notice <$> alerts w') =
    Some (match b with
          | Play.SimulateDemandSpike => ("warning", "Simulating demand spike for SKU001")
          | Play.SimulateDelay => ("warning", "Simulating supplier delay for SUP001")
          | Play.TriggerOptimization =>
              ("info", "Triggering system-wide optimization cycle")
          end) ∧
  wire w' =
    wire w ++
    (if sent
     then [match b with
           | Play.SimulateDemandSpike =>
               ("simulate_demand_spike",
                JObj {[ "sku_id" := JStr "SKU001"; "multiplier" := JNum (dec 25 10);
                        "duration_hours" := JNum (int 24) ]})
           | Play.SimulateDelay =>
               ("simulate_delay",
                JObj {[ "supplier_id" := JStr "SUP001"; "delay_days" := JNum (int 3) ]})
           | Play.TriggerOptimization => ("trigger_optimization", JObj ∅)
           end]
     else []) ∧
  messages w' = messages w.
Proof.
  intros w' sent. subst w'. unfold exec.
  destruct b; cbn [Play.click];
    unfold Dashboard.simulateDemandSpike, Dashboard.simulateDelay,
           Dashboard.triggerOptimization;
    rewrite bind_unfold, sendMessage_unfold; fold sent;
    destruct sent; cbn [emit]; rewrite addAlert_unfold; cbn -[insert];
    repeat split; by rewrite ?app_nil_r.
Qed.

(** ** Inventory updates *)

Lemma update_lookup_other (d : inventory_update) (inv : gmap string sku.t) (k : string) :
  k ≠ sku_id d → InventoryView.update d inv !! k = inv !! k.
Proof. intros Hk. unfold InventoryView.update. by rewrite lookup_insert_ne. Qed.

Lemma update_lookup_same (d : inventory_update) (inv : gmap string sku.t) :
  InventoryView.update d inv !! sku_id d =
  Some (let old := default sku.empty (inv !! sku_id d) in
        sku.Make (sku.name old) (sku.category old) (sku.unitCost old)
          (Some (<[ warehouse_id d := current_stock d ]>
                   (default ∅ (inv !! sku_id d ≫= sku.currentStock))))
          (sku.minStock old) (sku.maxStock old) (sku.demandRate old)
          (sku.status old)).
Proof. unfold InventoryView.update. by rewrite lookup_insert_eq. Qed.

Lemma update_lookup_at (d : inventory_update) (inv : gmap string sku.t) (k : string) :
  sku_id d = k →
  InventoryView.update d inv !! k =
  Some (let old := default sku.empty (inv !! k) in
        sku.Make (sku.name old) (sku.category old) (sku.unitCost old)
          (Some (<[ warehouse_id d := current_stock d ]>
                   (default ∅ (inv !! k ≫= sku.currentStock))))
          (sku.minStock old) (sku.maxStock old) (sku.demandRate old)
          (sku.status old)).
Proof. intros <-. apply update_lookup_same. Qed.

(** X8. An inventory update writes one cell: every other SKU is as before;
    in the record of the SKU every field but [currentStock] is as before
    (undefined if the SKU is new), the stock of the named warehouse is the
    one of the event, and the stock of every other warehouse is as before. *)
Theorem inventory_update_writes_one_cell
    (d : inventory_update) (inv : gmap string sku.t) :
  (∀ k, k ≠ sku_id d → InventoryView.update d inv !! k = inv !! k) ∧
  ∃ r stock,
    InventoryView.update d inv !! sku_id d = Some r ∧
    sku.currentStock r = Some stock ∧
    stock !! warehouse_id d = Some (current_stock d) ∧
    (∀ wh, wh ≠ warehouse_id d →
           stock !! wh = (inv !! sku_id d ≫= sku.currentStock) ≫= (.!! wh)) ∧
    sku.name r = inv !! sku_id d ≫= sku.name ∧
    sku.category r = inv !! sku_id d ≫= sku.category ∧
    sku.unitCost r = inv !! sku_id d ≫= sku.unitCost ∧
    sku.minStock r = inv !! sku_id d ≫= sku.minStock ∧
    sku.maxStock r = inv !! sku_id d ≫= sku.maxStock ∧
    sku.demandRate r = inv !! sku_id d ≫= sku.demandRate ∧
    sku.status r = inv !! sku_id d ≫= sku.status.
Proof.
  split; [intros k Hk; by apply update_lookup_other|].
  eexists _, _. split; [apply update_lookup_same|]. cbn zeta.
  split; [reflexivity|]. split; [by rewrite lookup_insert_eq|].
  split.
  - intros wh Hwh. rewrite lookup_insert_ne by done.
    destruct (inv !! sku_id d) as [[? ? ? [s|] ? ? ? ?]|]; done.
  - by destruct (inv !! sku_id d) as [[]|].
Qed.

Lemma update_overwrites (d1 d2 : inventory_update) (inv : gmap string sku.t) :
  sku_id d1 = sku_id d2 → warehouse_id d1 = warehouse_id d2 →
  InventoryView.update d2 (InventoryView.update d1 inv) = InventoryView.update d2 inv.
Proof.
  intros Hs Hw. apply map_eq. intros k.
  destruct (decide (k = sku_id d1)) as [->|Hk].
  - rewrite !(update_lookup_at d2 _ (sku_id d1)), update_lookup_same by done.
    rewrite <- Hw. cbn -[insert]. by rewrite insert_insert_eq.
  - rewrite !update_lookup_other by congruence. done.
Qed.

(** Updates of different cells give the same records in either order (the
    order in which the keys of the object are listed is not part of the
    model). *)
Lemma update_commutes (d1 d2 : inventory_update) (inv : gmap string sku.t) :
  (sku_id d1 ≠ sku_id d2 ∨ warehouse_id d1 ≠ warehouse_id d2) →
  InventoryView.update d2 (InventoryView.update d1 inv)
  = InventoryView.update d1 (InventoryView.update d2 inv).
Proof.
  intros Hne. apply map_eq. intros k.
  destruct (decide (sku_id d1 = sku_id d2)) as [Hs|Hs].
  - destruct Hne as [|Hw]; [done|].
    destruct (decide (k = sku_id d1)) as [->|Hk].
    + rewrite !(update_lookup_at d2 _ (sku_id d1)), !update_lookup_same by done.
      rewrite (update_lookup_at d2 _ (sku_id d1)) by done.
      cbn -[insert]. by rewrite insert_insert_ne.
    + rewrite !update_lookup_other by congruence. done.
  - destruct (decide (k = sku_id d2)) as [->|Hk2];
      [|destruct (decide (k = sku_id d1)) as [->|Hk1]].
    + rewrite update_lookup_same, (update_lookup_other d1) by congruence.
      by rewrite !update_lookup_other, update_lookup_same by congruence.
    + rewrite update_lookup_other, !update_lookup_same by congruence.
      by rewrite update_lookup_other by congruence.
    + by rewrite !update_lookup_other by congruence.
Qed.

(** X9. Inventory updates are last-write-wins per cell: an update applied
    twice is the update applied once, and a later update of the same SKU
    and warehouse replaces an earlier one. *)
Theorem inventory_update_last_write_wins
    (d1 d2 : inventory_update) (inv : gmap string sku.t) :
  InventoryView.update d1 (InventoryView.update d1 inv) = InventoryView.update d1 inv ∧
  (sku_id d1 = sku_id d2 → warehouse_id d1 = warehouse_id d2 →
   InventoryView.update d2 (InventoryView.update d1 inv) = InventoryView.update d2 inv).
Proof. split; [by apply update_overwrites|apply update_overwrites]. Qed.

(** ** Scanning the log again and again *)

Section Absorb.

Context {S A : Type} (f : S → A → S).

(** Handling first some of the elements of [l] and then all of [l] is the
    same as handling [l]. *)
Hypothesis absorb : ∀ (p l : list A) (s : S),
  p ⊆ l → foldl f (foldl f s p) l = foldl f s l.

Lemma foldl_scans_from (seen new : list A) (s : S) :
  foldl f s (seen ++ Session.scans_from seen new) = foldl f s (seen ++ new).
Proof.
  revert seen s. induction new as [|x new IH]; intros seen s; [done|].
  cbn [Session.scans_from]. rewrite foldl_app, IH, <- foldl_app, <- app_assoc.
  cbn [app]. rewrite foldl_app. apply absorb.
  intros y Hy. apply elem_of_app. by left.
Qed.

Lemma foldl_scans (log : list A) (s : S) :
  foldl f s (Session.scans log) = foldl f s log.
Proof. apply (foldl_scans_from [] log s). Qed.

End Absorb.

Lemma update_absorbed (p : inventory_update) (l : list inventory_update)
    (inv : gmap string sku.t) :
  Exists (λ d, sku_id p = sku_id d ∧ warehouse_id p = warehouse_id d) l →
  foldl (λ inv d, InventoryView.update d inv) (InventoryView.update p inv) l
  = foldl (λ inv d, InventoryView.update d inv) inv l.
Proof.
  intros Hex. revert inv. induction l as [|d l IH]; intros inv.
  { by apply Exists_nil in Hex. }
  cbn [foldl].
  destruct (decide (sku_id p = sku_id d)) as [Hs|Hs];
    [destruct (decide (warehouse_id p = warehouse_id d)) as [Hw|Hw]|].
  - by rewrite update_overwrites.
  - rewrite update_commutes by (by right). apply IH.
    apply Exists_cons in Hex as [[_ Hw']|Hex]; done.
  - rewrite update_commutes by (by left). apply IH.
    apply Exists_cons in Hex as [[Hs' _]|Hex]; done.
Qed.

Lemma updates_absorbed (p l : list inventory_update) (inv : gmap string sku.t) :
  p ⊆ l →
  foldl (λ inv d, InventoryView.update d inv)
        (foldl (λ inv d, InventoryView.update d inv) inv p) l
  = foldl (λ inv d, InventoryView.update d inv) inv l.
Proof.
  revert inv. induction p as [|d p IH]; intros inv Hsub; [done|].
  cbn [foldl]. rewrite IH by set_solver.
  apply update_absorbed, Exists_exists. exists d. split; [set_solver|done].
Qed.

Lemma foldl_merge_union (l : list (gmap string jsval)) (m : gmap string jsval) :
  foldl (λ me d, Dashboard.merge d me) m l
  = foldl (λ me d, Dashboard.merge d me) ∅ l ∪ m.
Proof.
  revert m. induction l as [|d l IH]; intros m; cbn [foldl].
  - by rewrite (left_id_L ∅ (∪)).
  - rewrite (IH (Dashboard.merge d m)), (IH (Dashboard.merge d ∅)).
    unfold Dashboard.merge. by rewrite (right_id_L ∅ (∪)), (assoc_L (∪)).
Qed.

Lemma foldl_merge_None (l : list (gmap string jsval)) (k : string) :
  foldl (λ me d, Dashboard.merge d me) ∅ l !! k = None ↔ ∀ d, d ∈ l → d !! k = None.
Proof.
  induction l as [|d l IH] using rev_ind.
  - split; [intros _ d Hd; by apply elem_of_nil in Hd|done].
  - rewrite foldl_app. cbn [foldl]. unfold Dashboard.merge at 1.
    rewrite lookup_union_None, IH. split.
    + intros [Hd Hl] d' Hd'. apply elem_of_app in Hd' as [Hd'|Hd'].
      * by apply Hl.
      * apply list_elem_of_singleton in Hd' as ->. done.
    + intros H. split.
      * apply H, elem_of_app. right. by apply list_elem_of_singleton.
      * intros d' Hd'. apply H, elem_of_app. by left.
Qed.

Lemma merges_absorbed (p l : list (gmap string jsval)) (m : gmap string jsval) :
  p ⊆ l →
  foldl (λ me d, Dashboard.merge d me) (foldl (λ me d, Dashboard.merge d me) m p) l
  = foldl (λ me d, Dashboard.merge d me) m l.
Proof.
  intros Hsub. rewrite foldl_merge_union, (foldl_merge_union p), (foldl_merge_union l m).
  apply map_eq. intros k. rewrite !lookup_union.
  destruct (foldl _ ∅ l !! k) as [v|] eqn:Hl.
  - by destruct (foldl _ ∅ p !! k), (m !! k).
  - assert (foldl (λ me d, Dashboard.merge d me) ∅ p !! k = None) as ->.
    { apply foldl_merge_None. intros d Hd.
      by eapply (proj1 (foldl_merge_None l k)); [|apply Hsub]. }
    by destruct (m !! k).
Qed.

(** Handling the log is as the handler of the panel says, cell by cell. *)
Lemma InventoryView_handles_inventory (m : message.t) (w : page) : ∃ w',
  InventoryView.onMessage m w = (Some tt, w') ∧ messages w' = messages w ∧
  inventory w' = match message.data m with
                 | InventoryUpdate d => InventoryView.update d (inventory w)
                 | _ => inventory w
                 end.
Proof.
  destruct (InventoryView_handles m w) as (w' & Hm & Hlog & Hobs).
  exists w'. split; [done|]. split; [done|].
  destruct (message.data m); by injection Hobs.
Qed.

Lemma Dashboard_handles_metrics (m : message.t) (w : page) : ∃ w',
  Dashboard.onMessage m w = (Some tt, w') ∧ messages w' = messages w ∧
  metrics w' = match message.data m with
               | SystemMetrics d => Dashboard.merge d (metrics w)
               | _ => metrics w
               end.
Proof.
  destruct (Dashboard_handles m w) as (w' & Hm & Hlog & Hobs).
  exists w'. split; [done|]. split; [done|].
  destruct (message.data m); by injection Hobs.
Qed.

Lemma foldl_inventory_updates (ps : list payload) (inv : gmap string sku.t) :
  foldl (λ inv p, match p with
                  | InventoryUpdate d => InventoryView.update d inv
                  | _ => inv
                  end) inv ps
  = foldl (λ inv d, InventoryView.update d inv) inv (Session.inventory_updates ps).
Proof.
  revert inv. induction ps as [|[d|d|d|d|d] ps IH]; intros inv; [done|apply IH..].
Qed.

Lemma foldl_system_metrics (ps : list payload) (me : gmap string jsval) :
  foldl (λ me p, match p with
                 | SystemMetrics d => Dashboard.merge d me
                 | _ => me
                 end) me ps
  = foldl (λ me d, Dashboard.merge d me) me (Session.system_metrics ps).
Proof.
  revert me. induction ps as [|[d|d|d|d|d] ps IH]; intros me; [done|apply IH..].
Qed.

(** X10. Scanning the whole log on every growth does not disturb the
    inventory: after the delivery of any events to a panel mounted on an
    empty log, the inventory is what handling each stored inventory update
    exactly once, in the order of arrival, would have produced. *)
Theorem rescans_leave_inventory_as_one_pass (w0 : page) (ps : list payload) :
  messages w0 = [] →
  inventory (exec (Session.deliver InventoryView.effect (SocketContext.Event <$> ps)) w0)
  = foldl (λ inv d, InventoryView.update d inv) (inventory w0)
          (Session.inventory_updates (filter (λ p, Session.listened p = true) ps)).
Proof.
  intros Hempty.
  destruct (deliver_handles InventoryView.onMessage inventory
              (λ p inv, match p with
                        | InventoryUpdate d => InventoryView.update d inv
                        | _ => inv
                        end)
              InventoryView_handles_inventory (λ _ _ _, eq_refl) ps w0)
    as (w' & Hrun & _ & Hinv).
  unfold exec, InventoryView.effect. rewrite Hrun. cbn [snd]. rewrite Hinv, Hempty.
  cbn [fmap list_fmap]. fold (Session.scans (filter (λ p, Session.listened p = true) ps)).
  rewrite <- foldl_inventory_updates.
  apply (foldl_scans (λ inv p, match p with
                               | InventoryUpdate d => InventoryView.update d inv
                               | _ => inv
                               end)).
  intros p l s Hsub. rewrite !foldl_inventory_updates.
  apply updates_absorbed. intros d Hd.
  apply list_elem_of_omap in Hd as (x & Hx & Hsel).
  apply list_elem_of_omap. exists x. split; [by apply Hsub|done].
Qed.

(** Two updates of the same cell and one of another SKU: the first update is
    scanned three times, and the inventory is that of one pass. *)
Lemma rescans_leave_inventory_as_one_pass_witness :
  let w0 := exec InventoryView.mount (Session.mounted Session.slow_clock) in
  let ps := [ InventoryUpdate (Build_inventory_update "SKU001" "north" (JNum (int 44)));
              InventoryUpdate (Build_inventory_update "SKU999" "south" (JNum (int 7)));
              InventoryUpdate (Build_inventory_update "SKU001" "north" (JNum (int 43))) ] in
  messages w0 = [] ∧
  (inventory (exec (Session.deliver InventoryView.effect (SocketContext.Event <$> ps)) w0)
     !! "SKU001") ≫= sku.currentStock
  = Some {[ "north" := JNum (int 43); "central" := JNum (int 78);
            "south" := JNum (int 23) ]}.
Proof.
  cbv zeta. split; [reflexivity|].
  rewrite (rescans_leave_inventory_as_one_pass
             (exec InventoryView.mount (Session.mounted Session.slow_clock)) _ eq_refl).
  reflexivity.
Defined.

(** X11. Nor does it disturb the metrics of the dashboard: after the
    delivery of any events to a dashboard mounted on an empty log, the
    metrics are what merging each stored [system_metrics] payload exactly
    once, in the order of arrival, would have produced. *)
Theorem rescans_leave_metrics_as_one_pass (w0 : page) (ps : list payload) :
  messages w0 = [] →
  metrics (exec (Session.deliver Dashboard.effect (SocketContext.Event <$> ps)) w0)
  = foldl (λ me d, Dashboard.merge d me) (metrics w0)
          (Session.system_metrics (filter (λ p, Session.listened p = true) ps)).
Proof.
  intros Hempty.
  destruct (deliver_handles Dashboard.onMessage metrics
              (λ p me, match p with
                       | SystemMetrics d => Dashboard.merge d me
                       | _ => me
                       end)
              Dashboard_handles_metrics (λ _ _ _, eq_refl) ps w0)
    as (w' & Hrun & _ & Hme).
  unfold exec, Dashboard.effect. rewrite Hrun. cbn [snd]. rewrite Hme, Hempty.
  cbn [fmap list_fmap]. fold (Session.scans (filter (λ p, Session.listened p = true) ps)).
  rewrite <- foldl_system_metrics.
  apply (foldl_scans (λ me p, match p with
                              | SystemMetrics d => Dashboard.merge d me
                              | _ => me
                              end)).
  intros p l s Hsub. rewrite !foldl_system_metrics.
  apply merges_absorbed. intros d Hd.
  apply list_elem_of_omap in Hd as (x & Hx & Hsel).
  apply list_elem_of_omap. exists x. split; [by apply Hsub|done].
Qed.

Lemma rescans_leave_metrics_as_one_pass_witness :
  let w0 := Session.mounted Session.slow_clock in
  let ps := [ SystemMetrics {[ "serviceLevel" := JNum (dec 95 100) ]};
              OptimizationResult (Build_optimization_result "SKU001");
              SystemMetrics {[ "stockoutIncidents" := JNum (int 4) ]} ] in
  messages w0 = [] ∧
  metrics (exec (Session.deliver Dashboard.effect (SocketContext.Event <$> ps)) w0)
  = {[ "stockoutIncidents" := JNum (int 4) ]}
    ∪ ({[ "serviceLevel" := JNum (dec 95 100) ]} ∪ Dashboard.initial_metrics).
Proof.
  cbv zeta. split; [reflexivity|].
  rewrite (rescans_leave_metrics_as_one_pass (Session.mounted Session.slow_clock) _ eq_refl).
  reflexivity.
Defined.

(** ** Stock status and the reorder dialog *)

Lemma le_undefined (x : number) : InventoryControls.le x None = false.
Proof. by destruct x. Qed.

(** X12. A SKU that the panel first learns of through an inventory update
    has no [minStock] and no [maxStock], so [getStockStatus] never throws
    for it and never reports [low_stock] or [overstock]: for every
    warehouse, a numeric stock of any size gives [normal]. *)
Theorem new_sku_is_always_normal
    (d : inventory_update) (inv : gmap string sku.t) (warehouseId : string) :
  inv !! sku_id d = None →
  ∃ r, InventoryView.update d inv !! sku_id d = Some r ∧
       InventoryControls.getStockStatus r warehouseId ≠ InventoryControls.TypeError ∧
       (∀ status,
          InventoryControls.getStockStatus r warehouseId
            = InventoryControls.Returns status → status = "normal") ∧
       (∀ q, current_stock d = JNum q →
             InventoryControls.getStockStatus r warehouseId
               = InventoryControls.Returns "normal").
Proof.
  intros Hnew. eexists. split; [apply update_lookup_same|].
  rewrite Hnew. cbn -[insert]. unfold InventoryControls.getStockStatus.
  cbn -[insert InventoryControls.stock_or_zero].
  assert (∀ x, (if InventoryControls.le x None then InventoryControls.Returns "low_stock"
                else match x, @None number with
                     | Num _, Some (Num _) => InventoryControls.NotModelled
                     | _, _ => InventoryControls.Returns "normal"
                     end)
               = InventoryControls.Returns "normal") as Hnormal.
  { intros x. rewrite le_undefined. by destruct x. }
  split; [|split].
  - destruct (InventoryControls.stock_or_zero _ _); [by rewrite Hnormal|done].
  - intros status. destruct (InventoryControls.stock_or_zero _ _); [|done].
    rewrite Hnormal. by intros [= <-].
  - intros q Hq. unfold InventoryControls.stock_or_zero.
    destruct (decide (warehouseId = warehouse_id d)) as [->|Hne].
    + rewrite lookup_insert_eq, Hq. apply Hnormal.
    + rewrite lookup_insert_ne, lookup_empty by done.
      case_bool_decide; apply Hnormal.
Qed.

Lemma new_sku_is_always_normal_witness :
  let d := Build_inventory_update "SKU999" "north" (JNum (int 0)) in
  (∅ : gmap string sku.t) !! sku_id d = None ∧
  ∃ r, InventoryView.update d ∅ !! "SKU999" = Some r ∧
       InventoryControls.getStockStatus r "north" = InventoryControls.Returns "normal".
Proof.
  cbv zeta. split; [reflexivity|].
  destruct (new_sku_is_always_normal
              (Build_inventory_update "SKU999" "north" (JNum (int 0))) ∅ "north"
              (lookup_empty _))
    as (r & Hr & _ & _ & Hq).
  exists r. split; [exact Hr|]. exact (Hq _ eq_refl).
Defined.

Section Reorder.

Variable Number_toString : Qc → string.

Lemma confirmReorder_idle (d : InventoryControls.dialog) (w : page) :
  InventoryControls.selectedSKU d = None
  ∨ InventoryControls.selectedSKU d = Some ""
  ∨ InventoryControls.positive (InventoryControls.reorderQuantity d) = None →
  InventoryControls.confirmReorder Number_toString d w = (Some d, w).
Proof.
  unfold InventoryControls.confirmReorder. intros [->|[->|Hq]]; try done.
  destruct (InventoryControls.selectedSKU d) as [sku|]; [|done].
  destruct (negb _); [|done]. by rewrite Hq.
Qed.

Lemma confirmReorder_active (sku : string) (q : Qc) (shown : bool) (w : page) :
  sku ≠ "" → (0 < q)%Qc →
  let d := InventoryControls.Dialog shown (Some sku) (Num q) in
  let r := InventoryControls.confirmReorder Number_toString d w in
  let sent := bool_decide (is_Some (socket w)) && connected w in
  r.1 = Some (InventoryControls.Dialog false (Some sku) (Num q)) ∧
  head (Session.notice <$> alerts r.2)
    = Some ("success", "Reorder request sent for " +:+ sku +:+ ": "
                       +:+ Number_toString q +:+ " units") ∧
  wire r.2 =
    wire w ++ (if sent
               then [("create_reorder",
                      JObj {[ "sku_id" := JStr sku; "quantity" := JNum q;
                              "priority" := JStr "high" ]})]
               else []).
Proof.
  intros Hsku Hq d r sent. subst r d. unfold InventoryControls.confirmReorder.
  cbn [InventoryControls.selectedSKU InventoryControls.reorderQuantity
       InventoryControls.positive].
  assert (negb (String.eqb sku "") = true) as ->.
  { apply negb_true_iff, String.eqb_neq. done. }
  rewrite bool_decide_eq_true_2 by done.
  rewrite bind_unfold, sendMessage_unfold. fold sent.
  destruct sent; cbn [emit]; rewrite bind_unfold, addAlert_unfold; cbn;
    repeat split; by rewrite ?app_nil_r.
Qed.

(** X13. [confirmReorder] does nothing at all unless a SKU is selected and
    the quantity is a number above 0: with no selection, or a quantity that
    is 0, negative or [NaN], the page and the dialog stay as they are; no
    command is sent and no alert is raised. *)
Theorem confirmReorder_needs_selection_and_quantity
    (d : InventoryControls.dialog) (w : page) :
  InventoryControls.selectedSKU d = None
  ∨ InventoryControls.selectedSKU d = Some ""
  ∨ InventoryControls.reorderQuantity d = NaN
  ∨ (∃ q, InventoryControls.reorderQuantity d = Num q ∧ (q ≤ 0)%Qc) →
  InventoryControls.confirmReorder Number_toString d w = (Some d, w).
Proof.
  intros [H|[H|[Hq|(q & Hq & Hle)]]]; apply confirmReorder_idle; auto.
  - right. right. by rewrite Hq.
  - right. right. rewrite Hq. cbn.
    rewrite bool_decide_eq_false_2; [done|]. by apply Qcle_not_lt.
Qed.

(** X14. When a SKU is selected and the quantity is above 0,
    [confirmReorder] closes the dialog and raises the success alert whether
    or not the command went out: the [create_reorder] command is on the wire
    only if the socket exists and is connected, otherwise the wire is
    unchanged. *)
Theorem confirmReorder_announces_even_when_dropped
    (sku : string) (q : Qc) (shown : bool) (w : page) :
  sku ≠ "" → (0 < q)%Qc →
  let d := InventoryControls.Dialog shown (Some sku) (Num q) in
  let r := InventoryControls.confirmReorder Number_toString d w in
  let sent := bool_decide (is_Some (socket w)) && connected w in
  r.1 = Some (InventoryControls.Dialog false (Some sku) (Num q)) ∧
  head (Session.notice <$> alerts r.2)
    = Some ("success", "Reorder request sent for " +:+ sku +:+ ": "
                       +:+ Number_toString q +:+ " units") ∧
  wire r.2 =
    wire w ++ (if sent
               then [("create_reorder",
                      JObj {[ "sku_id" := JStr sku; "quantity" := JNum q;
                              "priority" := JStr "high" ]})]
               else []).
Proof. intros Hsku Hq. by apply confirmReorder_active. Qed.

(** X15. For a SKU with a positive [minStock], the reorder dialog opens
    with twice that quantity; confirming it as it stands closes the dialog,
    raises the success alert and, if the socket is connected, sends
    [create_reorder] for twice the [minStock]. *)
Theorem reorder_proposes_twice_minStock
    (inv : gmap string sku.t) (skuId : string) (s : sku.t) (m : Qc)
    (d : InventoryControls.dialog) (w : page) :
  inv !! skuId = Some s →
  sku.minStock s = Some (Num m) →
  (0 < m)%Qc →
  skuId ≠ "" →
  let opened := InventoryControls.handleReorder inv skuId d in
  let r := InventoryControls.confirmReorder Number_toString opened.2 w in
  let sent := bool_decide (is_Some (socket w)) && connected w in
  opened = (Some tt, InventoryControls.Dialog true (Some skuId) (Num (m * 2))) ∧
  r.1 = Some (InventoryControls.Dialog false (Some skuId) (Num (m * 2))) ∧
  head (Session.notice <$> alerts r.2)
    = Some ("success", "Reorder request sent for " +:+ skuId +:+ ": "
                       +:+ Number_toString (m * 2) +:+ " units") ∧
  wire r.2 =
    wire w ++ (if sent
               then [("create_reorder",
                      JObj {[ "sku_id" := JStr skuId; "quantity" := JNum (m * 2);
                              "priority" := JStr "high" ]})]
               else []).
Proof.
  intros Hs Hmin Hm Hsku opened r sent.
  assert (opened = (Some tt, InventoryControls.Dialog true (Some skuId) (Num (m * 2))))
    as Hopened.
  { subst opened. unfold InventoryControls.handleReorder. by rewrite Hs, Hmin. }
  split; [done|]. subst r. rewrite Hopened. cbn [snd].
  apply confirmReorder_active; [done|].
  rewrite <- (Qcmult_0_l 2). apply Qcmult_lt_compat_r; [by vm_compute|done].
Qed.

End Reorder.

Lemma confirmReorder_needs_selection_and_quantity_witness :
  let d := InventoryControls.Dialog true (Some "SKU003") (Num (int 0)) in
  (InventoryControls.selectedSKU d = None
   ∨ InventoryControls.selectedSKU d = Some ""
   ∨ InventoryControls.reorderQuantity d = NaN
   ∨ (∃ q, InventoryControls.reorderQuantity d = Num q ∧ (q ≤ 0)%Qc)) ∧
  InventoryControls.confirmReorder (λ _, "") d (Session.mounted Session.slow_clock)
  = (Some d, Session.mounted Session.slow_clock).
Proof.
  cbv zeta.
  assert (InventoryControls.selectedSKU
            (InventoryControls.Dialog true (Some "SKU003") (Num (int 0))) = None
          ∨ InventoryControls.selectedSKU
              (InventoryControls.Dialog true (Some "SKU003") (Num (int 0))) = Some ""
          ∨ InventoryControls.reorderQuantity
              (InventoryControls.Dialog true (Some "SKU003") (Num (int 0))) = NaN
          ∨ (∃ q, InventoryControls.reorderQuantity
                    (InventoryControls.Dialog true (Some "SKU003") (Num (int 0))) = Num q
                  ∧ (q ≤ 0)%Qc)) as H.
  { right. right. right. exists (int 0). split; [reflexivity|]. by vm_compute. }
  split; [exact H|].
  exact (confirmReorder_needs_selection_and_quantity (λ _, "") _
           (Session.mounted Session.slow_clock) H).
Defined.

Lemma confirmReorder_announces_even_when_dropped_witness :
  let w := Session.mounted Session.slow_clock in
  let r := InventoryControls.confirmReorder (λ _, "10")
             (InventoryControls.Dialog true (Some "SKU003") (Num (int 10))) w in
  ("SKU003" ≠ "" ∧ (0 < int 10)%Qc) ∧
  head (Session.notice <$> alerts r.2)
    = Some ("success", "Reorder request sent for SKU003: 10 units") ∧
  wire r.2 = [].
Proof.
  cbv zeta.
  assert ("SKU003" ≠ "") as Hs by done.
  assert (0 < int 10)%Qc as Hq by (by vm_compute).
  split; [by split|].
  destruct (confirmReorder_announces_even_when_dropped (λ _, "10") "SKU003" (int 10)
              true (Session.mounted Session.slow_clock) Hs Hq) as (_ & Hn & Hwire).
  split; [exact Hn|exact Hwire].
Defined.

(** SKU003 of the sample inventory ([minStock] 5): the dialog proposes 10. *)
Lemma reorder_proposes_twice_minStock_witness :
  let w := exec InventoryView.mount (Session.mounted Session.slow_clock) in
  let s := InventoryView.sample "Luxury Item" "Premium" 150 3 7 2 5 50 2 "low_stock" in
  let opened := InventoryControls.handleReorder (inventory w) "SKU003"
                  InventoryControls.initial_dialog in
  (inventory w !! "SKU003" = Some s ∧ sku.minStock s = Some (Num (int 5)) ∧
   (0 < int 5)%Qc ∧ "SKU003" ≠ "") ∧
  opened = (Some tt, InventoryControls.Dialog true (Some "SKU003") (Num (int 5 * 2))) ∧
  wire (InventoryControls.confirmReorder (λ _, "10") opened.2 w).2 = [].
Proof.
  cbv zeta.
  assert (0 < int 5)%Qc as Hm by (by vm_compute).
  assert ("SKU003" ≠ "") as Hsku by done.
  split; [by repeat split|].
  destruct (reorder_proposes_twice_minStock (λ _, "10")
              (inventory (exec InventoryView.mount (Session.mounted Session.slow_clock)))
              "SKU003"
              (InventoryView.sample "Luxury Item" "Premium" 150 3 7 2 5 50 2 "low_stock")
              (int 5) InventoryControls.initial_dialog
              (exec InventoryView.mount (Session.mounted Session.slow_clock))
              eq_refl eq_refl Hm Hsku) as (Hopened & _ & _ & Hwire).
  split; [exact Hopened|exact Hwire].
Defined.

(** ** The agent panel over a whole session *)

Section Agents.

Variable Number_toString : Qc → string.
Variable time : nat → Z.

Let known : list string := ["demand"; "supply"; "logistics"; "negotiation"].

(** What the agent panel maintains about [agents]: the four records are
    present with the name, status, statistics and colour they started with;
    [demand] has counted a finite number of messages, at least 45; and a
    record under any other key has no status and a count of [NaN]. *)
Let steady (w : page) : Prop :=
  (∀ k, k ∈ known →
        ∃ a a0, agents w !! k = Some a ∧
                AgentStatus.initial_agents time !! k = Some a0 ∧
                agent.name a = agent.name a0 ∧
                agent.status a = Some "active" ∧
                agent.stats a = agent.stats a0 ∧
                agent.color a = agent.color a0) ∧
  (∃ a q, agents w !! "demand" = Some a ∧
          agent.messagesProcessed a = Some (Num q) ∧ (int 45 ≤ q)%Qc) ∧
  (∀ k a, k ∉ known → agents w !! k = Some a →
          agent.status a = None ∧ agent.messagesProcessed a = Some NaN).

Lemma mounted_steady : steady (Session.mounted time).
Proof.
  split; [|split].
  - intros k Hk. unfold known in Hk. rewrite !elem_of_cons, elem_of_nil in Hk.
    destruct Hk as [->|[->|[->|[->|[]]]]]; eexists _, _;
      (split; [reflexivity|]); (split; [reflexivity|]); done.
  - eexists _, _. split; [reflexivity|]. split; [reflexivity|]. done.
  - intros k a Hk Ha. exfalso. apply Hk.
    change (agents (Session.mounted time)) with (AgentStatus.initial_agents time) in Ha.
    unfold AgentStatus.initial_agents in Ha.
    repeat (apply lookup_insert_Some in Ha as [[<- _]|[_ Ha]];
            [unfold known; set_solver|]).
    apply lookup_singleton_Some in Ha as [<- _]. unfold known. set_solver.
Qed.

Lemma update_steady (key : string) (t : Z) :
  keeps steady (setAgents (AgentStatus.update key t)).
Proof.
  intros w (Hknown & Hdemand & Hother). unfold exec, setAgents.
  destruct (AgentStatus.update key t (agents w)) as [new|] eqn:Hu; [|done].
  unfold steady. cbn [snd agents].
  unfold AgentStatus.update, AgentStatus.get in Hu.
  destruct (agents w !! key) as [b|] eqn:Hkey.
  - injection Hu as <-. split; [|split].
    + intros k Hk. destruct (Hknown k Hk) as (a & a0 & Ha & Ha0 & Hn & Hs & Hst & Hc).
      destruct (decide (key = k)) as [->|Hne].
      * rewrite lookup_insert_eq. eexists _, a0. split; [done|].
        assert (a = b) as -> by congruence. done.
      * rewrite lookup_insert_ne by done. eauto 10.
    + destruct Hdemand as (a & q & Ha & Hq & Hle).
      destruct (decide (key = "demand")) as [->|Hne].
      * rewrite lookup_insert_eq. assert (a = b) as -> by congruence.
        eexists _, (q + 1)%Qc. split; [done|]. cbn. rewrite Hq. split; [done|].
        etrans; [exact Hle|]. rewrite <- (Qcplus_0_r q) at 1.
        by apply Qcplus_le_mono_l.
      * rewrite lookup_insert_ne by done. eauto.
    + intros k a Hk Ha. destruct (decide (key = k)) as [->|Hne].
      * rewrite lookup_insert_eq in Ha. injection Ha as <-. cbn.
        destruct (Hother k b Hk Hkey) as [-> ->]. done.
      * rewrite lookup_insert_ne in Ha by done. eauto.
  - case_bool_decide as Hproto; [|done]. injection Hu as <-.
    assert (key ∉ known) as Hk.
    { intros Hk. destruct (Hknown key Hk) as (a & _ & Ha & _). congruence. }
    split; [|split].
    + intros k Hk'. destruct (Hknown k Hk') as (a & a0 & Ha & H).
      rewrite lookup_insert_ne by congruence. eauto.
    + destruct Hdemand as (a & q & Ha & H).
      rewrite lookup_insert_ne; [eauto|].
      intros ->. apply Hk. unfold known. set_solver.
    + intros k a Hk' Ha. destruct (decide (key = k)) as [->|Hne].
      * rewrite lookup_insert_eq in Ha. by injection Ha as <-.
      * rewrite lookup_insert_ne in Ha by done. eauto.
Qed.

Lemma play_steady (steps : list Play.step) :
  steady (exec (Play.play Number_toString steps) (Session.mounted time)).
Proof.
  apply (keeps_play Number_toString steady); try untouched.
  - intros key t. apply update_steady.
  - apply keeps_Sustainability_effect; untouched.
  - apply mounted_steady.
Qed.

(** X16. Whatever happens on the page, the four agent records stay in
    place with the name, status [active], statistics and colour they
    started with: messages only ever change [lastActivity] and
    [messagesProcessed]. *)
Theorem agent_records_keep_their_identity (steps : list Play.step) (k : string) :
  k ∈ ["demand"; "supply"; "logistics"; "negotiation"] →
  ∃ a a0,
    agents (exec (Play.play Number_toString steps) (Session.mounted time)) !! k = Some a ∧
    AgentStatus.initial_agents time !! k = Some a0 ∧
    agent.name a = agent.name a0 ∧
    agent.status a = Some "active" ∧
    agent.stats a = agent.stats a0 ∧
    agent.color a = agent.color a0.
Proof. intros Hk. by apply (proj1 (play_steady steps)). Qed.

(** X17. The count of the [demand] agent is always a finite number, never
    below the 45 it starts with (unlike the three other agents, whose count
    is undefined or [NaN]). *)
Theorem demand_count_never_below_45 (steps : list Play.step) :
  ∃ a q,
    agents (exec (Play.play Number_toString steps) (Session.mounted time)) !! "demand"
      = Some a ∧
    agent.messagesProcessed a = Some (Num q) ∧ (int 45 ≤ q)%Qc.
Proof. apply (proj1 (proj2 (play_steady steps))). Qed.

(** X18. The badge "Active Agents" reads 4 at every moment of every
    session, even once a message from a sender such as ['constructor'] has
    added a fifth record to [agents]. *)
Theorem activeAgents_is_always_4 (steps : list Play.step) :
  AgentHealth.activeAgents
    (agents (exec (Play.play Number_toString steps) (Session.mounted time))) = 4%nat.
Proof.
  destruct (play_steady steps) as (Hknown & _ & Hother).
  unfold AgentHealth.activeAgents.
  rewrite <- size_dom.
  rewrite (dom_filter_L _ _ (list_to_set known)).
  - reflexivity.
  - intros k. rewrite elem_of_list_to_set. split.
    + intros Hk. destruct (Hknown k Hk) as (a & _ & Ha & _ & _ & Hs & _). eauto.
    + intros (a & Ha & Hs). cbn in Hs.
      destruct (decide (k ∈ known)) as [|Hk]; [done|].
      destruct (Hother k a Hk Ha) as [Hnone _]. congruence.
Qed.

Lemma play_never_counts (steps : list Play.step) :
  AgentStatus.never_counts
    (exec (Play.play Number_toString steps) (Session.mounted time)).
Proof.
  assert (keeps AgentStatus.never_counts (Play.play Number_toString steps)) as Hplay.
  { apply keeps_play; try untouched.
    - intros key t. apply update_never_counts.
    - apply keeps_Sustainability_effect; untouched. }
  exact (Hplay _ (initial_never_counts time)).
Qed.

(** X19. The badge "Total Messages" is [NaN] at every moment of every
    session, the initial one included: the sum runs over the count of
    [supply], which is undefined or [NaN]. *)
Theorem totalMessages_is_always_NaN (steps : list Play.step) :
  AgentHealth.totalMessages
    (agents (exec (Play.play Number_toString steps) (Session.mounted time))) = NaN.
Proof.
  destruct (play_never_counts steps "supply") as (a & Ha & Hmp).
  { unfold AgentStatus.uncounted. set_solver. }
  unfold AgentHealth.totalMessages.
  rewrite (map_fold_delete_L _ _ "supply" a) by
    (try done; intros j1 j2 z1 z2 y _ _ _; unfold AgentHealth.add;
     destruct y, (agent.messagesProcessed z1) as [[]|],
              (agent.messagesProcessed z2) as [[]|]; try done;
     f_equal; rewrite <- !Qcplus_assoc; f_equal; apply Qcplus_comm).
  unfold AgentHealth.add at 1.
  destruct Hmp as [-> | ->]; by destruct (map_fold _ _ _).
Qed.

(** X20. The list of recent messages always has at least 4 and at most 10
    entries. *)
Theorem recentMessages_between_4_and_10 (steps : list Play.step) :
  let w := exec (Play.play Number_toString steps) (Session.mounted time) in
  (4 ≤ length (recentMessages w) ≤ 10)%nat.
Proof.
  apply (keeps_play Number_toString
           (λ w, (4 ≤ length (recentMessages w) ≤ 10)%nat)); try untouched.
  - intros m w Hw. unfold exec. cbn. rewrite length_take. lia.
  - apply keeps_Sustainability_effect; untouched.
  - assert (length (recentMessages (Session.mounted time)) = 4%nat) as ->
      by reflexivity.
    lia.
Qed.

End Agents.

(** The [supply] record after a message from ['SUPPLY'] has been handled. *)
Lemma agent_records_keep_their_identity_witness :
  let steps := [ Play.Signal (SocketContext.Event
                    (AgentMessage (Build_agent_message (Some "SUPPLY") (JStr "demand")
                                     (JStr "supply_alert") (Some "{}"))));
                 Play.Effect Play.AgentPanel ] in
  "supply" ∈ ["demand"; "supply"; "logistics"; "negotiation"] ∧
  ∃ a,
    agents (exec (Play.play (λ _, "") steps) (Session.mounted Session.slow_clock))
      !! "supply" = Some a ∧
    agent.name a = Some "Supply Agent" ∧ agent.status a = Some "active" ∧
    agent.messagesProcessed a = Some NaN.
Proof.
  cbv zeta.
  assert ("supply" ∈ ["demand"; "supply"; "logistics"; "negotiation"]) as Hin
    by (apply elem_of_cons; right; apply elem_of_cons; by left).
  split; [exact Hin|].
  destruct (agent_records_keep_their_identity (λ _, "") Session.slow_clock
              [ Play.Signal (SocketContext.Event
                   (AgentMessage (Build_agent_message (Some "SUPPLY") (JStr "demand")
                                    (JStr "supply_alert") (Some "{}"))));
                Play.Effect Play.AgentPanel ] "supply" Hin)
    as (a & a0 & Ha & Ha0 & Hn & Hs & _).
  exists a. split; [exact Ha|].
  assert (agents (exec (Play.play (λ _, "")
                          [ Play.Signal (SocketContext.Event
                               (AgentMessage (Build_agent_message (Some "SUPPLY")
                                  (JStr "demand") (JStr "supply_alert") (Some "{}"))));
                            Play.Effect Play.AgentPanel ])
                       (Session.mounted Session.slow_clock)) !! "supply"
          = Some (agent.Make (Some "Supply Agent") (Some "active")
                    (Some 1762066800001%Z) (Some NaN)
                    {[ "ordersProcessed" := Num (int 23);
                       "suppliersMonitored" := Num (int 4);
                       "reliability" := Num (dec 92 100) ]}
                    (Some "#007bff"))) as Hval by reflexivity.
  rewrite Hval in Ha. injection Ha as <-. by repeat split.
Defined.

(** ** Effects: what they leave alone *)

(** X21. The effect of a panel never writes to the log, the socket, the
    connection flag or the wire, nor to the cells of another panel, whether
    it returns or throws; the agent panel, although it is handed
    [addAlert], never touches the alert ring either. *)
Theorem effects_touch_only_their_cells (p : Play.panel) (w : page) :
  let w' := exec (Play.effect_of p) w in
  (messages w' = messages w ∧ socket w' = socket w ∧
   connected w' = connected w ∧ wire w' = wire w) ∧
  match p with
  | Play.DashboardPanel =>
      inventory w' = inventory w ∧ agents w' = agents w ∧
      recentMessages w' = recentMessages w ∧
      sustainabilityData w' = sustainabilityData w
  | Play.InventoryPanel =>
      metrics w' = metrics w ∧ agents w' = agents w ∧
      recentMessages w' = recentMessages w ∧
      sustainabilityData w' = sustainabilityData w
  | Play.AgentPanel =>
      alerts w' = alerts w ∧ metrics w' = metrics w ∧
      inventory w' = inventory w ∧
      sustainabilityData w' = sustainabilityData w
  | Play.SustainabilityPanel =>
      metrics w' = metrics w ∧ inventory w' = inventory w ∧
      agents w' = agents w ∧ recentMessages w' = recentMessages w
  end.
Proof.
  intros w'. subst w'. destruct p; cbn [Play.effect_of].
  - apply (keeps_Dashboard_effect
             (λ w', (messages w' = messages w ∧ socket w' = socket w ∧
                     connected w' = connected w ∧ wire w' = wire w) ∧
                    inventory w' = inventory w ∧ agents w' = agents w ∧
                    recentMessages w' = recentMessages w ∧
                    sustainabilityData w' = sustainabilityData w));
      try untouched. done.
  - apply (keeps_InventoryView_effect
             (λ w', (messages w' = messages w ∧ socket w' = socket w ∧
                     connected w' = connected w ∧ wire w' = wire w) ∧
                    metrics w' = metrics w ∧ agents w' = agents w ∧
                    recentMessages w' = recentMessages w ∧
                    sustainabilityData w' = sustainabilityData w));
      try untouched. done.
  - apply (keeps_AgentStatus_effect
             (λ w', (messages w' = messages w ∧ socket w' = socket w ∧
                     connected w' = connected w ∧ wire w' = wire w) ∧
                    alerts w' = alerts w ∧ metrics w' = metrics w ∧
                    inventory w' = inventory w ∧
                    sustainabilityData w' = sustainabilityData w));
      try untouched. done.
  - apply (keeps_Sustainability_effect
             (λ w', (messages w' = messages w ∧ socket w' = socket w ∧
                     connected w' = connected w ∧ wire w' = wire w) ∧
                    metrics w' = metrics w ∧ inventory w' = inventory w ∧
                    agents w' = agents w ∧ recentMessages w' = recentMessages w));
      try untouched. done.
Qed.

(** ** The sustainability panel *)

Lemma sustainability_effect_idle (w : page) :
  Forall (λ m, Session.listened (message.data m) = true) (messages w) →
  SustainabilityMetrics.effect w = (Some tt, w).
Proof.
  unfold SustainabilityMetrics.effect. rewrite bind_unfold. cbn [gets].
  generalize (messages w). intros l Hl. induction Hl as [|m l Hm _ IH]; [done|].
  rewrite forEach_cons.
  assert (SustainabilityMetrics.onMessage m w = (Some tt, w)) as ->; [|done].
  unfold SustainabilityMetrics.onMessage. by destruct (message.data m).
Qed.

(** X23. The sustainability panel never reacts: in every session no
    message of type [sustainability_update] is ever in the log, so the
    effect of the panel changes nothing, the sustainability data stay at
    their initial values, and the alert "Sustainability metrics updated" is
    never raised by it. *)
Theorem sustainability_panel_never_reacts
    (Number_toString : Qc → string) (time : nat → Z) (steps : list Play.step) :
  let w := exec (Play.play Number_toString steps) (Session.mounted time) in
  Forall (λ m, message.type m ≠ "sustainability_update") (messages w) ∧
  SustainabilityMetrics.effect w = (Some tt, w) ∧
  sustainabilityData w = SustainabilityMetrics.initial_sustainabilityData.
Proof.
  intros w.
  assert (Forall (λ m, Session.listened (message.data m) = true) (messages w)
          ∧ sustainabilityData w = SustainabilityMetrics.initial_sustainabilityData)
    as [Hlog Hdata].
  { subst w.
    apply (keeps_play Number_toString
             (λ w, Forall (λ m, Session.listened (message.data m) = true) (messages w)
                   ∧ sustainabilityData w
                     = SustainabilityMetrics.initial_sustainabilityData));
      try untouched.
    - intros p Hp w [Hl Hd]. split; [|done].
      unfold exec. cbn. apply Forall_app. split; [done|]. by constructor.
    - intros w [Hl Hd]. unfold exec. by rewrite sustainability_effect_idle.
    - split; [constructor|reflexivity]. }
  split; [|split; [by apply sustainability_effect_idle|done]].
  eapply Forall_impl; [exact Hlog|]. intros m Hm Htype.
  unfold message.type in Htype. apply listened_kinds in Hm.
  rewrite Htype, !elem_of_cons, elem_of_nil in Hm.
  destruct Hm as [?|[?|[?|[?|[]]]]]; discriminate.
Qed.

(** * The effect of a mounted panel over time *)

(** ** Runs of the effect *)

Lemma run_unfold (p : Play.panel) (w : page) :
  React.run p w =
  match Play.effect_of p w with
  | (Some _, w') => (Some (existsb (React.stirs p (agents w)) (messages w)), w')
  | (None, w') => (None, w')
  end.
Proof. reflexivity. Qed.

Lemma settle_unfold (n : nat) (p : Play.panel) (w : page) :
  React.settle (S n) p w =
  match React.run p w with
  | (Some true, w') => React.settle n p w'
  | (Some false, w') => (Some tt, w')
  | (None, w') => (None, w')
  end.
Proof.
  cbn [React.settle]. rewrite bind_unfold.
  by destruct (React.run p w) as [[[]|] w'].
Qed.

Lemma arrive_unfold (p : Play.panel) (s : SocketContext.signal) (n : nat) (w : page) :
  React.arrive p s n w =
  match SocketContext.receive s w with
  | (Some _, w1) =>
      if bool_decide (length (messages w) < length (messages w1))%nat
      then React.settle (S n) p w1 else (Some tt, w1)
  | (None, w1) => (None, w1)
  end.
Proof.
  unfold React.arrive. rewrite bind_unfold. cbn [gets]. rewrite bind_unfold.
  destruct (SocketContext.receive s w) as [[[]|] w1]; [|reflexivity].
  rewrite bind_unfold. cbn [gets]. by destruct (bool_decide _).
Qed.

Lemma attend_cons (p : Play.panel) (s : SocketContext.signal) (n : nat)
    (sched : list (SocketContext.signal * nat)) (w : page) :
  React.attend p ((s, n) :: sched) w =
  match React.arrive p s n w with
  | (Some _, w') => React.attend p sched w'
  | (None, w') => (None, w')
  end.
Proof. reflexivity. Qed.

(** The events of a schedule that a listener stores. *)
Lemma stored_cons (s : SocketContext.signal) (n : nat)
    (sched : list (SocketContext.signal * nat)) :
  filter (λ pl, Session.listened pl = true) (React.delivered ((s, n) :: sched)) =
  match s with
  | SocketContext.Event pl => if Session.listened pl then [pl] else []
  | _ => []
  end ++ filter (λ pl, Session.listened pl = true) (React.delivered sched).
Proof.
  unfold React.delivered. cbn [omap list_omap fst].
  destruct s as [| |pl]; try done.
  rewrite filter_cons. by destruct (Session.listened pl).
Qed.

Section Mounted.

(** A panel [p] that handles the messages satisfying [ok] without throwing.
    [J] holds of the page whenever the effect is about to run, and [G] is
    what a run of the effect establishes. *)
Variable p : Play.panel.
Variable ok : payload → Prop.
Variables J G : page → Prop.

Hypothesis run_spec : ∀ w,
  J w → Forall ok (message.data <$> messages w) →
  ∃ again w', React.run p w = (Some again, w') ∧ messages w' = messages w ∧ G w'.
Hypothesis G_J : ∀ w, G w → J w.
Hypothesis J_store : ∀ pl, keeps J (SocketContext.store pl).
Hypothesis J_connected : ∀ b, keeps J (setConnected b).
Hypothesis G_connected : ∀ b, keeps G (setConnected b).

Lemma settle_spec (n : nat) (w : page) :
  J w → Forall ok (message.data <$> messages w) →
  ∃ w', React.settle (S n) p w = (Some tt, w') ∧ messages w' = messages w ∧ G w'.
Proof.
  revert w. induction n as [|n IH]; intros w HJ Hok; rewrite settle_unfold;
    destruct (run_spec w HJ Hok) as (again & w1 & -> & Hlog & HG).
  - exists w1. by destruct again.
  - destruct again; [|by exists w1].
    destruct (IH w1) as (w2 & -> & Hlog2 & HG2); [by apply G_J|by rewrite Hlog|].
    exists w2. split; [done|]. split; [congruence|done].
Qed.

Lemma arrive_spec (s : SocketContext.signal) (n : nat) (w : page) :
  let new := filter (λ pl, Session.listened pl = true) (React.delivered [(s, n)]) in
  J w → Forall ok ((message.data <$> messages w) ++ new) →
  ∃ w', React.arrive p s n w = (Some tt, w') ∧
        message.data <$> messages w' = (message.data <$> messages w) ++ new ∧
        J w' ∧ (G w ∨ new ≠ [] → G w').
Proof.
  intros new HJ Hok. subst new. rewrite stored_cons in *. cbn [React.delivered omap list_omap filter list_filter] in *.
  rewrite arrive_unfold. destruct s as [| |pl].
  - exists (exec (setConnected true) w). cbn. rewrite bool_decide_eq_false_2 by lia.
    split; [done|]. split; [by rewrite app_nil_r|].
    split; [by apply J_connected|]. intros [HG|[]]; [by apply G_connected|done].
  - exists (exec (setConnected false) w). cbn. rewrite bool_decide_eq_false_2 by lia.
    split; [done|]. split; [by rewrite app_nil_r|].
    split; [by apply J_connected|]. intros [HG|[]]; [by apply G_connected|done].
  - rewrite receive_event_store. destruct (Session.listened pl) eqn:Hpl.
    + pose proof (J_store pl w HJ) as HJ1. unfold exec in HJ1.
      assert (SocketContext.store pl w =
              (Some tt, (SocketContext.store pl w).2)) as Hst by reflexivity.
      assert (message.data <$> messages (SocketContext.store pl w).2 =
              (message.data <$> messages w) ++ [pl]) as Hlog1.
      { change (messages (SocketContext.store pl w).2)
          with (messages w ++ [message.Make pl (readings (now w) (reads (now w)))]).
        by rewrite fmap_app. }
      rewrite Hst. rewrite bool_decide_eq_true_2
        by (rewrite <- !(length_fmap message.data), Hlog1, length_app; cbn; lia).
      destruct (settle_spec n _ HJ1) as (w' & -> & Hlog & HG).
      { rewrite Hlog1. by rewrite app_nil_r in Hok. }
      exists w'. split; [done|]. rewrite Hlog, Hlog1, app_nil_r.
      split; [done|]. split; [by apply G_J|done].
    + exists w. rewrite bool_decide_eq_false_2 by lia.
      split; [done|]. split; [by rewrite app_nil_r|]. split; [done|].
      intros [HG|[]]; done.
Qed.

Lemma attend_spec (sched : list (SocketContext.signal * nat)) (w : page) :
  let new := filter (λ pl, Session.listened pl = true) (React.delivered sched) in
  J w → Forall ok ((message.data <$> messages w) ++ new) →
  ∃ w', React.attend p sched w = (Some tt, w') ∧
        message.data <$> messages w' = (message.data <$> messages w) ++ new ∧
        J w' ∧ (G w ∨ new ≠ [] → G w').
Proof.
  revert w. induction sched as [|[s n] sched IH]; intros w new HJ Hok; subst new.
  - exists w. split; [done|]. split; [by rewrite app_nil_r|]. split; [done|].
    intros [HG|[]]; done.
  - rewrite attend_cons. rewrite stored_cons in *.
    destruct (arrive_spec s n w HJ) as (w1 & -> & Hlog1 & HJ1 & HG1).
    { rewrite stored_cons. cbn [React.delivered omap list_omap filter list_filter].
      rewrite app_nil_r. rewrite app_assoc in Hok. by apply Forall_app in Hok as [Hok _]. }
    rewrite stored_cons in Hlog1, HG1.
    cbn [React.delivered omap list_omap filter list_filter] in Hlog1, HG1.
    rewrite app_nil_r in Hlog1, HG1.
    destruct (IH w1 HJ1) as (w2 & -> & Hlog2 & HJ2 & HG2).
    { rewrite Hlog1. by rewrite <- app_assoc. }
    exists w2. split; [done|]. split; [by rewrite Hlog2, Hlog1, <- app_assoc|].
    split; [done|]. intros Hpre. apply HG2.
    destruct Hpre as [HG|Hnew].
    + left. apply HG1. by left.
    + destruct (decide (match s with
                        | SocketContext.Event pl => if Session.listened pl then [pl] else []
                        | _ => []
                        end = [])) as [Hs|Hs].
      * right. by rewrite Hs in Hnew.
      * left. apply HG1. by right.
Qed.

End Mounted.

(** ** Panels whose handler absorbs what it has handled before *)

Section Absorbing.

Context {S : Type}.
Variable p : Play.panel.
Variable h : message.t → M unit.
Variable obs : page → S.
Variable handle : payload → S → S.

Hypothesis effect_def : ∀ w, Play.effect_of p w = forEach (messages w) h w.
Hypothesis h_spec : ∀ m w, ∃ w',
  h m w = (Some tt, w') ∧ messages w' = messages w ∧
  obs w' = handle (message.data m) (obs w).
Hypothesis obs_store : ∀ pl w, obs (exec (SocketContext.store pl) w) = obs w.
Hypothesis obs_connected : ∀ b w, obs (exec (setConnected b) w) = obs w.
Hypothesis absorb : ∀ (pre l : list payload) (s : S),
  pre ⊆ l →
  foldl (λ s pl, handle pl s) (foldl (λ s pl, handle pl s) s pre) l
  = foldl (λ s pl, handle pl s) s l.

(** One run handles the whole log, from its first message. *)
Lemma run_whole_log (w : page) : ∃ again w',
  React.run p w = (Some again, w') ∧ messages w' = messages w ∧
  obs w' = foldl (λ s pl, handle pl s) (obs w) (message.data <$> messages w).
Proof.
  rewrite run_unfold, effect_def.
  destruct (forEach_handles h obs handle h_spec (messages w) w) as (w' & -> & Hlog & Hobs).
  by eexists _, w'.
Qed.

Let J (s0 : S) (w : page) : Prop :=
  ∃ pre, pre ⊆ message.data <$> messages w ∧ obs w = foldl (λ s pl, handle pl s) s0 pre.
Let G (s0 : S) (w : page) : Prop :=
  obs w = foldl (λ s pl, handle pl s) s0 (message.data <$> messages w).

Lemma J_run (s0 : S) (w : page) :
  J s0 w → Forall (λ _, True) (message.data <$> messages w) →
  ∃ again w', React.run p w = (Some again, w') ∧ messages w' = messages w ∧ G s0 w'.
Proof.
  intros (pre & Hpre & Hobs) _.
  destruct (run_whole_log w) as (again & w' & Hrun & Hlog & Hobs').
  exists again, w'. split; [done|]. split; [done|].
  unfold G. rewrite Hobs', Hobs, Hlog. by apply absorb.
Qed.

Lemma G_J (s0 : S) (w : page) : G s0 w → J s0 w.
Proof. intros HG. by exists (message.data <$> messages w). Qed.

Lemma J_store (s0 : S) (pl : payload) : keeps (J s0) (SocketContext.store pl).
Proof.
  intros w (pre & Hpre & Hobs). exists pre. rewrite obs_store. split; [|done].
  change (messages (exec (SocketContext.store pl) w))
    with (messages w ++ [message.Make pl (readings (now w) (reads (now w)))]).
  rewrite fmap_app. intros x Hx. apply elem_of_app. left. by apply Hpre.
Qed.

Lemma J_connected (s0 : S) (b : bool) : keeps (J s0) (setConnected b).
Proof. intros w (pre & Hpre & Hobs). exists pre. by rewrite obs_connected. Qed.

Lemma G_connected (s0 : S) (b : bool) : keeps (G s0) (setConnected b).
Proof. intros w HG. unfold G. by rewrite obs_connected. Qed.

Lemma J_start (w : page) : J (obs w) w.
Proof. exists []. split; [|done]. intros x Hx. by apply elem_of_nil in Hx. Qed.

(** However often the effect runs again, the observed cells are those of
    one pass over the whole log. *)
Lemma mount_absorbs (n : nat) (w : page) : ∃ w',
  React.mount p n w = (Some tt, w') ∧ messages w' = messages w ∧
  obs w' = foldl (λ s pl, handle pl s) (obs w) (message.data <$> messages w).
Proof.
  destruct (settle_spec p (λ _, True) (J (obs w)) (G (obs w))
              (J_run (obs w)) (G_J (obs w)) n w (J_start w))
    as (w' & Hrun & Hlog & HG).
  { by apply Forall_forall. }
  exists w'. split; [done|]. split; [done|]. unfold G in HG. by rewrite HG, Hlog.
Qed.

Lemma arrive_absorbs (s : SocketContext.signal) (n : nat) (w : page) :
  let new := filter (λ pl, Session.listened pl = true) (React.delivered [(s, n)]) in
  ∃ w', React.arrive p s n w = (Some tt, w') ∧
        message.data <$> messages w' = (message.data <$> messages w) ++ new ∧
        (new ≠ [] →
         obs w' = foldl (λ s pl, handle pl s) (obs w) (message.data <$> messages w')).
Proof.
  intros new.
  destruct (arrive_spec p (λ _, True) (J (obs w)) (G (obs w))
              (J_run (obs w)) (G_J (obs w)) (J_store (obs w)) (J_connected (obs w))
              (G_connected (obs w)) s n w (J_start w))
    as (w' & Hrun & Hlog & _ & HG).
  { by apply Forall_forall. }
  exists w'. split; [done|]. split; [done|]. intros Hnew. apply HG. by right.
Qed.

Lemma attend_absorbs (sched : list (SocketContext.signal * nat)) (w : page) :
  let new := filter (λ pl, Session.listened pl = true) (React.delivered sched) in
  ∃ w', React.attend p sched w = (Some tt, w') ∧
        message.data <$> messages w' = (message.data <$> messages w) ++ new ∧
        (new ≠ [] →
         obs w' = foldl (λ s pl, handle pl s) (obs w) (message.data <$> messages w')).
Proof.
  intros new.
  destruct (attend_spec p (λ _, True) (J (obs w)) (G (obs w))
              (J_run (obs w)) (G_J (obs w)) (J_store (obs w)) (J_connected (obs w))
              (G_connected (obs w)) sched w (J_start w))
    as (w' & Hrun & Hlog & _ & HG).
  { by apply Forall_forall. }
  exists w'. split; [done|]. split; [done|]. intros Hnew. apply HG. by right.
Qed.

End Absorbing.

Lemma attend_one (p : Play.panel) (s : SocketContext.signal) (n : nat) (w : page) :
  React.attend p [(s, n)] w = React.arrive p s n w.
Proof. rewrite attend_cons. by destruct (React.arrive p s n w) as [[[]|] w']. Qed.

(** ** The inventory panel, the dashboard and the sustainability panel *)

Lemma inventory_absorbs (pre l : list payload) (inv : gmap string sku.t) :
  pre ⊆ l →
  foldl (λ inv pl, match pl with
                   | InventoryUpdate d => InventoryView.update d inv
                   | _ => inv
                   end)
        (foldl (λ inv pl, match pl with
                          | InventoryUpdate d => InventoryView.update d inv
                          | _ => inv
                          end) inv pre) l
  = foldl (λ inv pl, match pl with
                     | InventoryUpdate d => InventoryView.update d inv
                     | _ => inv
                     end) inv l.
Proof.
  intros Hsub. rewrite !foldl_inventory_updates.
  apply updates_absorbed. intros d Hd.
  apply list_elem_of_omap in Hd as (x & Hx & Hsel).
  apply list_elem_of_omap. exists x. split; [by apply Hsub|done].
Qed.





(** The inventory panel over time: whatever the number of runs of its
    effect, the inventory is that of one pass over the whole log. *)
Lemma inventory_attend (sched : list (SocketContext.signal * nat)) (w : page) :
  let new := filter (λ pl, Session.listened pl = true) (React.delivered sched) in
  ∃ w', React.attend Play.InventoryPanel sched w = (Some tt, w') ∧
        message.data <$> messages w' = (message.data <$> messages w) ++ new ∧
        (new ≠ [] →
         inventory w' =
           foldl (λ inv d, InventoryView.update d inv) (inventory w)
                 (Session.inventory_updates (message.data <$> messages w'))).
Proof.
  intros new.
  destruct (attend_absorbs Play.InventoryPanel InventoryView.onMessage inventory
              (λ pl inv, match pl with
                         | InventoryUpdate d => InventoryView.update d inv
                         | _ => inv
                         end)
              (λ _, eq_refl) InventoryView_handles_inventory (λ _ _, eq_refl)
              (λ _ _, eq_refl) inventory_absorbs sched w) as (w' & Hrun & Hlog & Hobs).
  exists w'. split; [done|]. split; [done|]. intros Hnew.
  rewrite (Hobs Hnew). apply foldl_inventory_updates.
Qed.



(** ** The agent panel *)

Lemma agent_effect_unfold (w : page) :
  AgentStatus.effect w = forEach (messages w) (AgentStatus.onMessage (agents w)) w.
Proof. reflexivity. Qed.

(** The handler at work on a message that passes the guard and has a
    content. *)
Lemma onMessage_counts (captured : gmap string agent.t) (d : agent_message) (ts : Z)
    (key json : string) (new : gmap string agent.t) (w : page) :
  AgentStatus.agentKey_of d = Some key →
  AgentStatus.truthy_key (Some key) && AgentStatus.truthy (AgentStatus.get captured key) = true →
  content d = Some json →
  AgentStatus.update key (readings (now w) (reads (now w))) (agents w) = Some new →
  AgentStatus.onMessage captured (message.Make (AgentMessage d) ts) w =
  (Some tt,
   Page (Clock (readings (now w)) (S (S (S (reads (now w))))))
        (alerts w) (socket w) (connected w) (messages w) (wire w) (metrics w)
        (inventory w) new
        (recent.Make (readings (now w) (S (reads (now w)))) (from_agent d) (to_agent d)
                     (message_type d) (substring0 100 json +:+ "...")
                     (readings (now w) (S (S (reads (now w)))))
         :: take 9 (recentMessages w))
        (sustainabilityData w)).
Proof.
  intros Hkey Hguard Hjson Hnew. unfold AgentStatus.onMessage. cbn [message.data].
  rewrite Hkey, Hguard. rewrite bind_unfold. cbn [new_Date Date_now tick].
  rewrite bind_unfold. unfold setAgents. cbn [agents now readings reads].
  rewrite Hnew, Hjson. reflexivity.
Qed.

Lemma iter_bump_r (n : nat) (x : option number) :
  Nat.iter n React.bump (React.bump x) = Nat.iter (S n) React.bump x.
Proof. symmetry. apply Nat.iter_succ_r. Qed.

Lemma count_from_cons (k : string) (pl : payload) (l : list payload) :
  React.count_from k (pl :: l) =
  if React.from_key k pl then S (React.count_from k l) else React.count_from k l.
Proof.
  unfold React.count_from. rewrite filter_cons.
  destruct (React.from_key k pl); [by rewrite decide_True|by rewrite decide_False].
Qed.

Lemma count_from_app (k : string) (l1 l2 : list payload) :
  React.count_from k (l1 ++ l2) = (React.count_from k l1 + React.count_from k l2)%nat.
Proof. unfold React.count_from. by rewrite filter_app, length_app. Qed.

Section Captured.

(** One run of the effect: the guard reads the [agents] object [captured]
    at the start of the run, the updates apply to the current one, which
    has every key of [captured]. *)
Variable captured : gmap string agent.t.

Let covers (w : page) : Prop :=
  ∀ key, is_Some (captured !! key) → is_Some (agents w !! key).

Lemma agent_onMessage_spec (m : message.t) (w : page) :
  covers w →
  React.with_content (message.data m) = true →
  ∃ w', AgentStatus.onMessage captured m w = (Some tt, w') ∧
        messages w' = messages w ∧
        covers w' ∧
        ∀ k a, AgentStatus.truthy_key (Some k) = true → is_Some (captured !! k) →
               agents w !! k = Some a →
               ∃ a', agents w' !! k = Some a' ∧
                     agent.messagesProcessed a' =
                       if React.from_key k (message.data m)
                       then React.bump (agent.messagesProcessed a)
                       else agent.messagesProcessed a.
Proof.
  intros Hcov Hcontent.
  assert (∃ w', (Some tt, w) = (Some tt, w') ∧ messages w' = messages w ∧ covers w' ∧
                ∀ k a, AgentStatus.truthy_key (Some k) = true → is_Some (captured !! k) →
                       agents w !! k = Some a →
                       ∃ a', agents w' !! k = Some a' ∧
                             agent.messagesProcessed a' = agent.messagesProcessed a)
    as Hidle.
  { exists w. repeat (split; [done|]). intros k a _ _ Ha. by exists a. }
  destruct m as [[d|d|d|d|d] ts]; try exact Hidle.
  cbn [message.data React.with_content React.from_key] in *.
  destruct (AgentStatus.agentKey_of d) as [key|] eqn:Hkey.
  2:{ unfold AgentStatus.onMessage. cbn [message.data]. rewrite Hkey.
      destruct Hidle as (w' & Hw' & H). exists w'. split; [done|].
      destruct H as (? & ? & H). repeat (split; [done|]).
      intros k a Hk Hc Ha. rewrite bool_decide_eq_false_2 by done. eauto. }
  destruct (AgentStatus.truthy_key (Some key)
            && AgentStatus.truthy (AgentStatus.get captured key)) eqn:Hguard.
  2:{ unfold AgentStatus.onMessage. cbn [message.data]. rewrite Hkey, Hguard.
      exists w. repeat (split; [done|]).
      intros k a Hk Hc Ha. exists a. split; [done|].
      destruct (decide (key = k)) as [->|Hne];
        [|by rewrite bool_decide_eq_false_2 by congruence].
      unfold AgentStatus.get in Hguard. destruct Hc as [c Hc].
      rewrite Hc, Hk in Hguard. discriminate. }
  apply bool_decide_eq_true in Hcontent as [json Hjson].
  assert (∃ new, AgentStatus.update key (readings (now w) (reads (now w))) (agents w)
                 = Some new ∧
                 (∀ k, k ≠ key → new !! k = agents w !! k) ∧
                 is_Some (new !! key) ∧
                 ∀ a, agents w !! key = Some a →
                      ∃ a', new !! key = Some a' ∧
                            agent.messagesProcessed a'
                            = React.bump (agent.messagesProcessed a))
    as (new & Hnew & Hother & Hsome & Hsame).
  { unfold AgentStatus.update, AgentStatus.get.
    destruct (agents w !! key) as [b|] eqn:Hb.
    - eexists. split; [done|]. split; [|split].
      + intros k Hne. by rewrite lookup_insert_ne.
      + rewrite lookup_insert_eq. eauto.
      + intros a [= <-]. rewrite lookup_insert_eq. eauto.
    - apply andb_true_iff in Hguard as [_ Hguard]. unfold AgentStatus.get in Hguard.
      destruct (captured !! key) as [c|] eqn:Hc.
      { destruct (Hcov key) as [b' Hb']; [eauto|]. congruence. }
      destruct (bool_decide (key ∈ AgentStatus.Object_prototype)); [|done].
      eexists. split; [done|]. split; [|split].
      + intros k Hne. by rewrite lookup_insert_ne.
      + rewrite lookup_insert_eq. eauto.
      + intros a [=]. }
  rewrite (onMessage_counts captured d ts key json new w Hkey Hguard Hjson Hnew).
  eexists. split; [reflexivity|]. cbn [messages agents]. split; [done|]. split.
  - intros k Hk. destruct (decide (k = key)) as [->|Hne]; [done|].
    rewrite Hother by done. by apply Hcov.
  - intros k a Hk Hc Ha. destruct (decide (k = key)) as [->|Hne].
    + rewrite bool_decide_eq_true_2 by done. by apply Hsame.
    + rewrite bool_decide_eq_false_2 by congruence.
      exists a. by rewrite Hother.
Qed.

Lemma agent_forEach_spec (msgs : list message.t) (w : page) :
  covers w →
  Forall (λ m, React.with_content (message.data m) = true) msgs →
  ∃ w', forEach msgs (AgentStatus.onMessage captured) w = (Some tt, w') ∧
        messages w' = messages w ∧
        ∀ k a, AgentStatus.truthy_key (Some k) = true → is_Some (captured !! k) →
               agents w !! k = Some a →
               ∃ a', agents w' !! k = Some a' ∧
                     agent.messagesProcessed a' =
                       Nat.iter (React.count_from k (message.data <$> msgs)) React.bump
                                (agent.messagesProcessed a).
Proof.
  intros Hcov Hok. revert w Hcov. induction Hok as [|m msgs Hm _ IH]; intros w Hcov.
  - exists w. repeat (split; [done|]). intros k a _ _ Ha. by exists a.
  - rewrite forEach_cons.
    destruct (agent_onMessage_spec m w Hcov Hm) as (w1 & -> & Hlog1 & Hcov1 & Hstep).
    destruct (IH w1 Hcov1) as (w2 & -> & Hlog2 & Hrest).
    exists w2. split; [done|]. split; [congruence|].
    intros k a Hk Hc Ha.
    destruct (Hstep k a Hk Hc Ha) as (a1 & Ha1 & Hmp1).
    destruct (Hrest k a1 Hk Hc Ha1) as (a2 & Ha2 & Hmp2).
    exists a2. split; [done|].
    rewrite Hmp2, Hmp1, fmap_cons, count_from_cons.
    destruct (React.from_key k (message.data m)); [apply iter_bump_r|done].
Qed.

End Captured.

(** One run of the effect of the agent panel over a log of messages with
    content returns, and counts every message of the log. *)
Lemma agent_run_spec (w : page) :
  Forall (λ pl, React.with_content pl = true) (message.data <$> messages w) →
  ∃ again w', React.run Play.AgentPanel w = (Some again, w') ∧
              messages w' = messages w ∧
              ∀ k a, AgentStatus.truthy_key (Some k) = true → agents w !! k = Some a →
                     ∃ a', agents w' !! k = Some a' ∧
                           agent.messagesProcessed a' =
                             Nat.iter (React.count_from k (message.data <$> messages w))
                                      React.bump (agent.messagesProcessed a).
Proof.
  intros Hok. rewrite run_unfold. cbn [Play.effect_of]. rewrite agent_effect_unfold.
  destruct (agent_forEach_spec (agents w) (messages w) w) as (w' & -> & Hlog & Hcount).
  - by intros key.
  - by apply Forall_fmap in Hok.
  - eexists _, w'. split; [done|]. split; [done|].
    intros k a Hk Ha. apply Hcount; eauto.
Qed.

Section Counting.

(** The count of the agent [k], which started at [x0]. *)
Variable k : string.
Variable x0 : option number.
Hypothesis k_truthy : AgentStatus.truthy_key (Some k) = true.

Let counted (n : nat) (w : page) : Prop :=
  ∃ a n', agents w !! k = Some a ∧ (n ≤ n')%nat ∧
          agent.messagesProcessed a = Nat.iter n' React.bump x0.

Lemma counted_run (w : page) :
  counted 0 w →
  Forall (λ pl, React.with_content pl = true) (message.data <$> messages w) →
  ∃ again w', React.run Play.AgentPanel w = (Some again, w') ∧
              messages w' = messages w ∧
              counted (React.count_from k (message.data <$> messages w')) w'.
Proof.
  intros (a & n' & Ha & _ & Hmp) Hok.
  destruct (agent_run_spec w Hok) as (again & w' & Hrun & Hlog & Hcount).
  exists again, w'. split; [done|]. split; [done|].
  destruct (Hcount k a k_truthy Ha) as (a' & Ha' & Hmp').
  exists a', (React.count_from k (message.data <$> messages w) + n')%nat.
  split; [done|]. rewrite Hlog. split; [lia|].
  by rewrite Hmp', Hmp, Nat.iter_add.
Qed.

Lemma agent_attend_counts (sched : list (SocketContext.signal * nat)) (w : page)
    (a : agent.t) :
  let new := filter (λ pl, Session.listened pl = true) (React.delivered sched) in
  agents w !! k = Some a →
  agent.messagesProcessed a = x0 →
  Forall (λ pl, React.with_content pl = true) ((message.data <$> messages w) ++ new) →
  ∃ w', React.attend Play.AgentPanel sched w = (Some tt, w') ∧
        message.data <$> messages w' = (message.data <$> messages w) ++ new ∧
        (new ≠ [] →
         ∃ a' n, agents w' !! k = Some a' ∧
                 (React.count_from k (message.data <$> messages w') ≤ n)%nat ∧
                 agent.messagesProcessed a' = Nat.iter n React.bump x0).
Proof.
  intros new Ha Hmp Hok.
  destruct (attend_spec Play.AgentPanel (λ pl, React.with_content pl = true)
              (counted 0)
              (λ w, counted (React.count_from k (message.data <$> messages w)) w)
              counted_run) with (sched := sched) (w := w)
    as (w' & Hrun & Hlog & _ & HG).
  - intros w1 (a1 & n1 & Ha1 & _ & Hmp1). exists a1, n1. split; [done|]. split; [lia|done].
  - intros pl w1 (a1 & n1 & H). by exists a1, n1.
  - intros b w1 (a1 & n1 & H). by exists a1, n1.
  - intros b w1 (a1 & n1 & H). by exists a1, n1.
  - exists a, 0%nat. split; [done|]. split; [lia|done].
  - done.
  - exists w'. split; [done|]. split; [done|]. intros Hnew.
    destruct HG as (a' & n & Ha' & Hn & Hmp'); [by right|]. by exists a', n.
Qed.

End Counting.


(** ** What the effects do over time *)




(** ** The inventory panel: a SKU it does not hold *)

Lemma foldl_update_lookup_other (ds : list inventory_update) (inv : gmap string sku.t)
    (k : string) :
  Forall (λ d, sku_id d ≠ k) ds →
  foldl (λ inv d, InventoryView.update d inv) inv ds !! k = inv !! k.
Proof.
  intros Hds. revert inv. induction Hds as [|d ds Hd _ IH]; intros inv; [done|].
  cbn [foldl]. rewrite IH. by apply update_lookup_other.
Qed.

(** C5. An [inventory_update] arrives for a SKU that the inventory panel
    does not hold and that no earlier message of the log names.  The
    listener stores it, the effect of the panel runs (and runs again for as
    many renders as React completes), and the inventory then holds a record
    for the SKU whose only field is [currentStock], with the single entry
    of the event; every other field of the record is undefined.  When the
    log was empty, every other SKU is as before. *)
Theorem inventory_update_creates_partial_record
    (data : inventory_update) (renders : nat) (w : page) :
  inventory w !! sku_id data = None →
  Forall (λ d, sku_id d ≠ sku_id data)
         (Session.inventory_updates (message.data <$> messages w)) →
  let arrival :=
    React.arrive Play.InventoryPanel (SocketContext.Event (InventoryUpdate data)) renders in
  let w' := exec arrival w in
  arrival w = (Some tt, w') ∧
  message.data <$> messages w' = (message.data <$> messages w) ++ [InventoryUpdate data] ∧
  inventory w' !! sku_id data =
    Some (sku.Make None None None
                   (Some {[ warehouse_id data := current_stock data ]})
                   None None None None) ∧
  (messages w = [] →
   inventory w' =
     <[ sku_id data :=
          sku.Make None None None
                   (Some {[ warehouse_id data := current_stock data ]})
                   None None None None ]> (inventory w)).
Proof.
  intros Hnew Hlog arrival w'.
  destruct (inventory_attend [(SocketContext.Event (InventoryUpdate data), renders)] w)
    as (w1 & Hrun & Hlog1 & Hinv).
  rewrite attend_one in Hrun. fold arrival in Hrun.
  assert (w' = w1) as -> by (subst w'; unfold exec; by rewrite Hrun).
  change (filter _ _) with [InventoryUpdate data] in Hlog1, Hinv.
  specialize (Hinv ltac:(discriminate)). rewrite Hlog1 in Hinv.
  assert (Session.inventory_updates ((message.data <$> messages w) ++ [InventoryUpdate data])
          = Session.inventory_updates (message.data <$> messages w) ++ [data]) as Hups.
  { unfold Session.inventory_updates. by rewrite omap_app. }
  rewrite Hups, foldl_app in Hinv. cbn [foldl] in Hinv.
  split; [done|]. split; [done|]. split.
  - rewrite Hinv, update_lookup_same, foldl_update_lookup_other, Hnew by done.
    cbn -[insert]. by rewrite insert_empty.
  - intros Hempty. rewrite Hinv, Hempty. cbn [fmap list_fmap Session.inventory_updates
                                                omap list_omap foldl].
    unfold InventoryView.update. rewrite Hnew. cbn -[insert].
    by rewrite insert_empty.
Qed.

(** The scenario [{sku_id: 'SKU999', warehouse_id: 'north', current_stock: 10}]
    arriving at a panel whose inventory and log are empty, with three
    further renders. *)
Lemma inventory_update_creates_partial_record_witness :
  let data := {| sku_id := "SKU999"; warehouse_id := "north";
                 current_stock := JNum (int 10) |} in
  let w := Session.mounted Session.slow_clock in
  (inventory w !! sku_id data = None ∧
   Forall (λ d, sku_id d ≠ sku_id data)
          (Session.inventory_updates (message.data <$> messages w))) ∧
  inventory
    (exec (React.arrive Play.InventoryPanel
             (SocketContext.Event (InventoryUpdate data)) 3) w) =
  {[ "SKU999" :=
       sku.Make None None None (Some {[ "north" := JNum (int 10) ]})
                None None None None ]}.
Proof.
  cbv zeta.
  assert (Forall (λ d, sku_id d ≠ "SKU999")
            (Session.inventory_updates
               (message.data <$> messages (Session.mounted Session.slow_clock))))
    as Hlog by constructor.
  split; [split; [reflexivity|exact Hlog]|].
  destruct (inventory_update_creates_partial_record
              {| sku_id := "SKU999"; warehouse_id := "north";
                 current_stock := JNum (int 10) |} 3
              (Session.mounted Session.slow_clock) eq_refl Hlog)
    as (_ & _ & _ & Hinv).
  exact (eq_trans (Hinv eq_refl) eq_refl).
Defined.

(** ** The agent panel: messages without content, agents without count *)


Lemma onMessage_throws (captured : gmap string agent.t) (m : message.t) (w : page) :
  React.stirs Play.AgentPanel captured m = true →
  React.with_content (message.data m) = false →
  (AgentStatus.onMessage captured m w).1 = None.
Proof.
  destruct m as [[d|d|d|d|d] ts]; try done.
  unfold React.stirs, AgentStatus.onMessage. cbn [message.data React.with_content].
  destruct (AgentStatus.agentKey_of d) as [key|]; [|done].
  intros -> Hcontent.
  assert (content d = None) as ->.
  { destruct (content d) as [json|]; [|done].
    apply bool_decide_eq_false in Hcontent. destruct Hcontent. eauto. }
  rewrite bind_unfold. cbn [new_Date Date_now tick]. rewrite bind_unfold.
  unfold setAgents. cbn [agents now readings reads].
  by destruct (AgentStatus.update _ _ _).
Qed.

Lemma forEach_throws (captured : gmap string agent.t) (m : message.t)
    (msgs : list message.t) (w : page) :
  m ∈ msgs →
  React.stirs Play.AgentPanel captured m = true →
  React.with_content (message.data m) = false →
  (forEach msgs (AgentStatus.onMessage captured) w).1 = None.
Proof.
  intros Hin Hguard Hcontent. revert w.
  induction msgs as [|m' msgs IH]; intros w; [by apply elem_of_nil in Hin|].
  rewrite forEach_cons.
  destruct (AgentStatus.onMessage captured m' w) as [[[]|] w1] eqn:Hm'; [|done].
  apply elem_of_cons in Hin as [->|Hin]; [|by apply IH].
  pose proof (onMessage_throws captured m' w Hguard Hcontent) as Hthrow.
  by rewrite Hm' in Hthrow.
Qed.

(** The arrival of a message that passes the guard and has no content ends
    in the exception. *)
Lemma arrive_throws (d : agent_message) (renders : nat) (w : page) :
  (∀ ts, React.stirs Play.AgentPanel (agents w) (message.Make (AgentMessage d) ts) = true) →
  content d = None →
  (React.arrive Play.AgentPanel (SocketContext.Event (AgentMessage d)) renders w).1 = None.
Proof.
  intros Hguard Hcontent. rewrite arrive_unfold, receive_event.
  change (Session.listened (AgentMessage d)) with true. cbn iota.
  rewrite bool_decide_eq_true_2 by (cbn [messages]; rewrite length_app; cbn; lia).
  rewrite settle_unfold, run_unfold. cbn [Play.effect_of].
  rewrite agent_effect_unfold. cbn [messages agents].
  match goal with
  | |- context [forEach ?l ?h ?w1] =>
      pose proof (forEach_throws (agents w)
                    (message.Make (AgentMessage d) (readings (now w) (reads (now w))))
                    l w1) as Hthrow
  end.
  destruct (forEach _ _ _) as [[[]|] w2]; [|done].
  exfalso. discriminate Hthrow.
  - apply elem_of_app. right. by apply list_elem_of_singleton.
  - apply Hguard.
  - cbn. rewrite Hcontent. apply bool_decide_eq_false. by intros [? ?].
Qed.

Lemma keeps_run (I : page → Prop) (p : Play.panel) :
  keeps I (Play.effect_of p) → keeps I (React.run p).
Proof.
  intros Heff. apply keeps_bind; [apply keeps_gets|]. intros msgs.
  apply keeps_bind; [apply keeps_gets|]. intros captured.
  apply keeps_bind; [done|]. intros _. apply keeps_ret.
Qed.

Lemma keeps_settle (I : page → Prop) (p : Play.panel) (n : nat) :
  keeps I (Play.effect_of p) → keeps I (React.settle n p).
Proof.
  intros Heff. induction n as [|n IH]; [apply keeps_ret|].
  apply (keeps_bind I (React.run p)); [by apply keeps_run|].
  intros [|]; [done|apply keeps_ret].
Qed.

Lemma keeps_arrive (I : page → Prop) (p : Play.panel) (s : SocketContext.signal)
    (n : nat) :
  keeps I (SocketContext.receive s) → keeps I (Play.effect_of p) →
  keeps I (React.arrive p s n).
Proof.
  intros Hrec Heff. apply keeps_bind; [apply keeps_gets|]. intros before.
  apply keeps_bind; [done|]. intros _.
  apply keeps_bind; [apply keeps_gets|]. intros after.
  destruct (bool_decide _); [by apply keeps_settle|apply keeps_ret].
Qed.

Lemma iter_bump_NaN (n : nat) (x : option number) :
  x = None ∨ x = Some NaN → Nat.iter (S n) React.bump x = Some NaN.
Proof.
  intros Hx. induction n as [|n IH].
  - by destruct Hx as [-> | ->].
  - rewrite Nat.iter_succ, IH. reflexivity.
Qed.

(** C9. The sender is matched after lowercasing.  For every
    [agent_message] whose lowercased sender is [supply], [logistics] or
    [negotiation], the guard of the agent panel passes and the merge handed
    to [setAgents] sets the [messagesProcessed] of that agent to [NaN].
    When such a message arrives and has a content, the listener stores it,
    the effect of the panel runs (and runs again for as many renders as
    React completes), returns normally, and the page shows the count [NaN];
    when it has no content, the effect throws instead.  This holds in every
    state in which the three agents have a count that is undefined or
    [NaN], which the arrival preserves and which is true initially: the
    initial records of these three agents have no [messagesProcessed] (only
    [demand] has one, 45), and [undefined + 1] is [NaN]. *)
Theorem messagesProcessed_becomes_NaN
    (time : nat → Z) (d : agent_message) (sender key : string)
    (renders : nat) (w : page) :
  AgentStatus.never_counts w →
  Forall (λ pl, React.with_content pl = true) (message.data <$> messages w) →
  from_agent d = Some sender →
  toLowerCase sender = key →
  key ∈ ["supply"; "logistics"; "negotiation"] →
  let arrival :=
    React.arrive Play.AgentPanel (SocketContext.Event (AgentMessage d)) renders in
  let w' := exec arrival w in
  AgentStatus.agentKey_of d = Some key ∧
  AgentStatus.truthy_key (Some key)
    && AgentStatus.truthy (AgentStatus.get (agents w) key) = true ∧
  AgentStatus.never_counts (Session.mounted time) ∧
  (∃ a0, AgentStatus.initial_agents time !! key = Some a0 ∧
         agent.messagesProcessed a0 = None) ∧
  (∃ a0, AgentStatus.initial_agents time !! "demand" = Some a0 ∧
         agent.messagesProcessed a0 = Some (Num (int 45))) ∧
  (∀ t, ∃ new a', AgentStatus.update key t (agents w) = Some new ∧
                  new !! key = Some a' ∧
                  agent.messagesProcessed a' = Some NaN) ∧
  (is_Some (content d) →
   arrival w = (Some tt, w') ∧
   (∃ a', agents w' !! key = Some a' ∧ agent.messagesProcessed a' = Some NaN) ∧
   AgentStatus.never_counts w') ∧
  (content d = None → (arrival w).1 = None).
Proof.
  intros Hnever Hok Hfrom Hlower Hkey arrival w'.
  assert (AgentStatus.agentKey_of d = Some key) as Hk.
  { unfold AgentStatus.agentKey_of. by rewrite Hfrom, <- Hlower. }
  assert (AgentStatus.truthy_key (Some key) = true) as Htruthy.
  { rewrite !elem_of_cons, elem_of_nil in Hkey. by destruct Hkey as [->|[->|[->|[]]]]. }
  destruct (Hnever key Hkey) as (a & Ha & Hmp).
  assert (AgentStatus.truthy_key (Some key)
          && AgentStatus.truthy (AgentStatus.get (agents w) key) = true) as Hguard.
  { unfold AgentStatus.get. by rewrite Htruthy, Ha. }
  split; [done|]. split; [done|]. split; [apply initial_never_counts|].
  split.
  { rewrite !elem_of_cons, elem_of_nil in Hkey.
    destruct Hkey as [->|[->|[->|[]]]]; eexists; (split; [reflexivity|done]). }
  split; [eexists; split; reflexivity|].
  split; [|split].
  - intros t. unfold AgentStatus.update, AgentStatus.get. rewrite Ha.
    eexists _, _. split; [done|]. rewrite lookup_insert_eq. split; [done|].
    cbn. by destruct Hmp as [-> | ->].
  - intros [json Hjson].
    destruct (agent_attend_counts key (agent.messagesProcessed a) Htruthy
                [(SocketContext.Event (AgentMessage d), renders)] w a Ha eq_refl)
      as (w1 & Hrun & Hlog1 & Hcount).
    { change (filter _ _) with [AgentMessage d]. apply Forall_app. split; [done|].
      constructor; [|constructor]. cbn. rewrite Hjson. by apply bool_decide_eq_true. }
    rewrite attend_one in Hrun. fold arrival in Hrun.
    assert (w' = w1) as -> by (subst w'; unfold exec; by rewrite Hrun).
    change (filter _ _) with [AgentMessage d] in Hlog1, Hcount.
    destruct (Hcount ltac:(discriminate)) as (a' & n & Ha' & Hn & Hmp').
    rewrite Hlog1, count_from_app in Hn.
    assert (React.count_from key [AgentMessage d] = 1%nat) as Hone.
    { rewrite count_from_cons. cbn [React.from_key]. by rewrite bool_decide_eq_true_2. }
    rewrite Hone in Hn. destruct n as [|n]; [lia|].
    split; [done|]. split.
    + exists a'. split; [done|]. rewrite Hmp'. by apply iter_bump_NaN.
    + assert (keeps AgentStatus.never_counts arrival) as Hkeeps.
      { apply keeps_arrive; [apply receive_never_counts|apply effect_never_counts]. }
      pose proof (Hkeeps w Hnever) as Hw'. unfold exec in Hw'. by rewrite Hrun in Hw'.
  - intros Hnone. apply arrive_throws; [|done].
    intros ts. unfold React.stirs. cbn [message.data]. by rewrite Hk.
Qed.

(** A message from the sender ['SUPPLY'] arrives at the freshly mounted
    panel, and React completes two more renders. *)
Lemma messagesProcessed_becomes_NaN_witness :
  let d := Build_agent_message (Some "SUPPLY") (JStr "demand")
             (JStr "supply_alert") (Some "{}") in
  let w := Session.mounted Session.slow_clock in
  let w' := exec (React.arrive Play.AgentPanel
                    (SocketContext.Event (AgentMessage d)) 2) w in
  (AgentStatus.never_counts w ∧
   Forall (λ pl, React.with_content pl = true) (message.data <$> messages w) ∧
   from_agent d = Some "SUPPLY" ∧ toLowerCase "SUPPLY" = "supply" ∧
   "supply" ∈ ["supply"; "logistics"; "negotiation"]) ∧
  ∃ a', agents w' !! "supply" = Some a' ∧ agent.messagesProcessed a' = Some NaN.
Proof.
  cbv zeta.
  assert ("supply" ∈ ["supply"; "logistics"; "negotiation"]) as Hin
    by (apply elem_of_cons; by left).
  assert (Forall (λ pl, React.with_content pl = true)
            (message.data <$> messages (Session.mounted Session.slow_clock))) as Hok
    by constructor.
  pose proof (initial_never_counts Session.slow_clock) as Hnever.
  split; [by repeat split|].
  destruct (messagesProcessed_becomes_NaN Session.slow_clock
              (Build_agent_message (Some "SUPPLY") (JStr "demand")
                 (JStr "supply_alert") (Some "{}")) "SUPPLY" "supply" 2
              (Session.mounted Session.slow_clock)
              Hnever Hok eq_refl eq_refl Hin)
    as (_ & _ & _ & _ & _ & _ & H & _).
  destruct (H (ex_intro _ "{}" eq_refl)) as (_ & Hshown & _).
  exact Hshown.
Defined.

(** X22. An [agent_message] that passes the guard of the agent panel and
    carries no content makes the effect throw, wherever the message stands
    in the log; and the arrival of such a message at the mounted panel ends
    in that exception. *)
Theorem agent_effect_throws_on_message_without_content
    (m : message.t) (d : agent_message) (renders : nat) (w : page) :
  React.stirs Play.AgentPanel (agents w) m = true →
  React.with_content (message.data m) = false →
  (m ∈ messages w → (AgentStatus.effect w).1 = None) ∧
  (message.data m = AgentMessage d →
   (React.arrive Play.AgentPanel (SocketContext.Event (AgentMessage d)) renders w).1
   = None).
Proof.
  intros Hguard Hcontent. split.
  - intros Hin. rewrite agent_effect_unfold. by apply forEach_throws with m.
  - intros Hd. destruct m as [pl ts]. cbn [message.data] in Hd, Hcontent. subst pl.
    apply arrive_throws.
    + intros ts'. exact Hguard.
    + cbn in Hcontent. destruct (content d); [|done].
      apply bool_decide_eq_false in Hcontent. destruct Hcontent. eauto.
Qed.

(** A message from ['Demand'] without content, followed in the log by a
    message from [supply]. *)
Lemma agent_effect_throws_on_message_without_content_witness :
  let d := Build_agent_message (Some "Demand") (JStr "supply") (JStr "ping") None in
  let later := message.Make (AgentMessage
                 (Build_agent_message (Some "supply") JNull JNull (Some "{}"))) 2 in
  let w0 := Session.mounted Session.slow_clock in
  let w := exec (setMessages (λ _, [later; message.Make (AgentMessage d) 1])) w0 in
  (React.stirs Play.AgentPanel (agents w) (message.Make (AgentMessage d) 1) = true ∧
   React.with_content (AgentMessage d) = false) ∧
  (AgentStatus.effect w).1 = None ∧
  (React.arrive Play.AgentPanel (SocketContext.Event (AgentMessage d)) 0 w0).1 = None.
Proof.
  cbv zeta. split; [by split|].
  split.
  - refine (proj1 (agent_effect_throws_on_message_without_content
                     (message.Make
                        (AgentMessage (Build_agent_message (Some "Demand") (JStr "supply")
                                         (JStr "ping") None)) 1)
                     (Build_agent_message (Some "Demand") (JStr "supply") (JStr "ping") None)
                     0
                     (exec (setMessages
                              (λ _, [message.Make
                                       (AgentMessage
                                          (Build_agent_message (Some "supply") JNull JNull
                                             (Some "{}"))) 2;
                                     message.Make
                                       (AgentMessage
                                          (Build_agent_message (Some "Demand") (JStr "supply")
                                             (JStr "ping") None)) 1]))
                           (Session.mounted Session.slow_clock))
                     eq_refl eq_refl) _).
    apply elem_of_cons. right. apply elem_of_cons. by left.
  - exact (proj2 (agent_effect_throws_on_message_without_content
                    (message.Make
                       (AgentMessage (Build_agent_message (Some "Demand") (JStr "supply")
                                        (JStr "ping") None)) 1)
                    (Build_agent_message (Some "Demand") (JStr "supply") (JStr "ping") None)
                    0 (Session.mounted Session.slow_clock) eq_refl eq_refl) eq_refl).
Defined.
